(** * dispy: a byte-code disassembler and its line numbering

    A shallow embedding of [dispy/line_numbering.py] and
    [dispy/disassembler.py].  Python integers are [Z], lists are Rocq
    lists read through Python's subscript semantics, the set of opcodes
    that take an argument is a [gset Z], and methods are computations in
    a state-and-exception monad over the object they are called on. *)

From Stdlib Require Import Strings.Byte Strings.Ascii.
From stdpp Require Import base numbers list strings gmap pretty sorting.

Local Open Scope Z_scope.

(** ** Python primitives *)

(** The two exceptions the code can raise. *)
Inductive exn : Set :=
| IndexError
| StopIteration.

(** A method of an object of type [S] returning an [A]: it returns or
    raises, and in both cases leaves the object in some state. *)
Definition M (S A : Type) : Type := S -> (exn + A) * S.

Definition ret {S A} (a : A) : M S A := fun s => (inr a, s).

Definition bind {S A B} (m : M S A) (k : A -> M S B) : M S B :=
  fun s =>
    match m s with
    | (inr a, s') => k a s'
    | (inl e, s') => (inl e, s')
    end.

Definition raise {S A} (e : exn) : M S A := fun s => (inl e, s).

Definition gets {S A} (f : S -> A) : M S A := fun s => (inr (f s), s).

Definition modify {S} (f : S -> S) : M S unit := fun s => (inr tt, f s).

(** [try: body except StopIteration: handler]: any other exception
    passes through. *)
Definition try_except_StopIteration {S A} (body handler : M S A) : M S A :=
  fun s =>
    match body s with
    | (inl StopIteration, s') => handler s'
    | r => r
    end.

(** Runs a method of a component object stored in a field. *)
Definition on_field {S T A} (getf : S -> T) (setf : T -> S -> S)
  (m : M T A) : M S A :=
  fun s =>
    match m (getf s) with
    | (r, t') => (r, setf t' s)
    end.

Declare Scope py_scope.
Delimit Scope py_scope with py.
Notation "x <- m ;; k" := (bind m (fun x => k))
  (at level 65, m at next level, right associativity) : py_scope.
Notation "m ;;; k" := (bind m (fun _ => k))
  (at level 65, right associativity) : py_scope.
Local Open Scope py_scope.

(** [len(l)]. *)
Definition len {A} (l : list A) : Z := Z.of_nat (length l).

(** [l[i]] as a partial function: a negative index counts from the end,
    an index out of range has no value. *)
Definition index {A} (l : list A) (i : Z) : option A :=
  if decide (0 <= i) then l !! Z.to_nat i
  else if decide (0 <= i + len l) then l !! Z.to_nat (i + len l)
  else None.

(** [l[i]] as an expression: raises [IndexError] out of range. *)
Definition subscript {S A} (l : list A) (i : Z) : M S A :=
  match index l i with
  | Some x => ret x
  | None => raise IndexError
  end.

(** Unfolds the operations of the monad. *)
Ltac run_py :=
  cbv beta iota delta
    [bind ret raise gets modify try_except_StopIteration on_field subscript].

(** [list(bytearray(b))]: the bytes as integers in [range(256)]. *)
Definition byte_to_Z (b : Byte.byte) : Z := Z.of_N (Byte.to_N b).
Definition bytearray (b : list Byte.byte) : list Z := map byte_to_Z b.

(** [l[::2]]. *)
Fixpoint every_other {A} (l : list A) : list A :=
  match l with
  | [] => []
  | x :: l' =>
      x :: match l' with
           | [] => []
           | _ :: l'' => every_other l''
           end
  end.

(** The values the disassembler formats: [None], integers, strings, and
    any other constant, kept as the text [str] gives for it. *)
Inductive object : Set :=
| None_
| Int (z : Z)
| Str (s : string)
| Other (text : string).

(** [str(o)], which is also what [format] substitutes for a field. *)
Definition str (o : object) : string :=
  match o with
  | None_ => "None"
  | Int z => pretty z
  | Str s => s
  | Other text => text
  end.

Fixpoint spaces (n : nat) : string :=
  match n with
  | O => EmptyString
  | S n' => String " "%char (spaces n')
  end.

(** [s.ljust(width)]. *)
Definition ljust (s : string) (width : Z) : string :=
  s +:+ spaces (Z.to_nat (width - Z.of_nat (String.length s))).

(** The code object: the fields of it that the disassembler reads. *)
Record code : Set := {
  co_code : list Byte.byte;
  co_names : list string;
  co_varnames : list string;
  co_consts : list object;
  co_firstlineno : Z;
  co_lnotab : list Byte.byte
}.

(** ** line_numbering.py *)

Module LineNumbering.

Record Step : Set := { bytecode_step : Z; line_step : Z }.

(** The object's attributes; [_iterator] holds the pairs the iterator
    has not yielded yet. *)
Record t : Set := {
  _iterator : list Step;
  _steps : Step;
  line_number : Z;
  next_address : Z;
  is_exhausted : bool
}.

Definition set__iterator (v : list Step) (self : t) : t :=
  {| _iterator := v; _steps := _steps self;
     line_number := line_number self; next_address := next_address self;
     is_exhausted := is_exhausted self |}.

Definition set__steps (v : Step) (self : t) : t :=
  {| _iterator := _iterator self; _steps := v;
     line_number := line_number self; next_address := next_address self;
     is_exhausted := is_exhausted self |}.

Definition set_line_number (v : Z) (self : t) : t :=
  {| _iterator := _iterator self; _steps := _steps self;
     line_number := v; next_address := next_address self;
     is_exhausted := is_exhausted self |}.

Definition set_next_address (v : Z) (self : t) : t :=
  {| _iterator := _iterator self; _steps := _steps self;
     line_number := line_number self; next_address := v;
     is_exhausted := is_exhausted self |}.

Definition set_is_exhausted (v : bool) (self : t) : t :=
  {| _iterator := _iterator self; _steps := _steps self;
     line_number := line_number self; next_address := next_address self;
     is_exhausted := v |}.

(** [zip(steps[::2], steps[1::2])] under [starmap(Step, ...)]. *)
Definition pairs (steps : list Z) : list Step :=
  map (fun p => {| bytecode_step := p.1; line_step := p.2 |})
    (zip (every_other steps) (every_other (tail steps))).

(** [LineNumbering(code_object)]: the constructor raises [StopIteration]
    when the table holds no pair. *)
Definition __init__ (code_object : code) : exn + t :=
  let steps := bytearray (co_lnotab code_object) in
  match pairs steps with
  | [] => inl StopIteration
  | first :: iterator =>
      inr {| _iterator := iterator;
             _steps := first;
             line_number := co_firstlineno code_object + line_step first;
             next_address := bytecode_step first;
             is_exhausted := false |}
  end.

(** [next(self._iterator)]. *)
Definition next_iterator : M t Step :=
  fun self =>
    match _iterator self with
    | [] => (inl StopIteration, self)
    | s :: rest => (inr s, set__iterator rest self)
    end.

Definition _try_step : M t unit :=
  try_except_StopIteration
    (s <- next_iterator ;;
     modify (set__steps s) ;;;
     steps <- gets _steps ;;
     address <- gets next_address ;;
     modify (set_next_address (address + bytecode_step steps)))
    (modify (set_is_exhausted true)).

Definition step : M t unit :=
  exhausted <- gets is_exhausted ;;
  if exhausted : bool then raise StopIteration
  else
    line <- gets line_number ;;
    steps <- gets _steps ;;
    modify (set_line_number (line + line_step steps)) ;;;
    _try_step.

Definition at_new_line (program_counter : Z) : M t bool :=
  exhausted <- gets is_exhausted ;;
  if exhausted : bool then ret false
  else
    address <- gets next_address ;;
    ret (bool_decide (program_counter >= address)).

(** What a [step] that does not raise leaves behind: the line step of
    the pair held is added, then the next pair is fetched if there is
    one. *)
Definition stepped (self : t) : t :=
  match _iterator self with
  | [] =>
      {| _iterator := [];
         _steps := _steps self;
         line_number := line_number self + line_step (_steps self);
         next_address := next_address self;
         is_exhausted := true |}
  | s :: rest =>
      {| _iterator := rest;
         _steps := s;
         line_number := line_number self + line_step (_steps self);
         next_address := next_address self + bytecode_step s;
         is_exhausted := false |}
  end.

(** The calls a client can make on the object, and the state a sequence
    of them leaves it in (a call that raises leaves its state too). *)
Inductive call : Set :=
| Call_step
| Call_at_new_line (program_counter : Z).

Definition run_call (self : t) (c : call) : t :=
  match c with
  | Call_step => (step self).2
  | Call_at_new_line program_counter => (at_new_line program_counter self).2
  end.

Definition run_calls (calls : list call) (self : t) : t :=
  foldl run_call self calls.

(** Every pair the object still holds steps by a non-negative number of
    lines. *)
Definition line_steps_nonneg (self : t) : Prop :=
  0 <= line_step (_steps self)
  /\ Forall (fun s => 0 <= line_step s) (_iterator self).

(** The sum of one component over a list of pairs. *)
Definition total (component : Step -> Z) (steps : list Step) : Z :=
  foldr (fun s sum => component s + sum) 0 steps.

End LineNumbering.

(** ** The standard library's [dis] module

    The opcode tables come from Python's own [dis] module, which is not
    part of the repository: they are a parameter of the disassembler.
    [opname] has one entry per opcode byte; the [has*] lists are the
    eight attributes of the module whose name starts with [has]. *)
Record dis_module : Set := {
  opname : list string;
  hascompare : list Z;
  hasconst : list Z;
  hasfree : list Z;
  hasjabs : list Z;
  hasjrel : list Z;
  haslocal : list Z;
  hasname : list Z;
  hasnargs : list Z;
  opname_length : length opname = 256%nat
}.

(** ** disassembler.py *)

Module Disassembler.

Record t : Type := {
  output_file : list string;
  _code_object : code;
  _bytecode : list Z;
  _instructions_taking_arguments : gset Z;
  _program_counter : Z;
  _line_numbering : LineNumbering.t
}.

Definition set_output_file (v : list string) (self : t) : t :=
  {| output_file := v; _code_object := _code_object self;
     _bytecode := _bytecode self;
     _instructions_taking_arguments := _instructions_taking_arguments self;
     _program_counter := _program_counter self;
     _line_numbering := _line_numbering self |}.

Definition set__program_counter (v : Z) (self : t) : t :=
  {| output_file := output_file self; _code_object := _code_object self;
     _bytecode := _bytecode self;
     _instructions_taking_arguments := _instructions_taking_arguments self;
     _program_counter := v;
     _line_numbering := _line_numbering self |}.

Definition set__line_numbering (v : LineNumbering.t) (self : t) : t :=
  {| output_file := output_file self; _code_object := _code_object self;
     _bytecode := _bytecode self;
     _instructions_taking_arguments := _instructions_taking_arguments self;
     _program_counter := _program_counter self;
     _line_numbering := v |}.

Definition STOP_CODE : Z := 0.
Definition POP_TOP : Z := 1.
Definition LINE_WIDTH : Z := 8.

(** [print(line, file=self.output_file)]: one more line in the sink. *)
Definition print (line : string) : M t unit :=
  modify (fun self => set_output_file (output_file self ++ [line]) self).

(** A method call on [self._line_numbering]. *)
Definition line_numbering {A} (m : M LineNumbering.t A) : M t A :=
  on_field _line_numbering set__line_numbering m.

Section WithDis.

Variable dis : dis_module.

Definition FORMAT_WIDTH : Z :=
  Z.of_nat (max_list (map String.length (opname dis))) + LINE_WIDTH.

Definition _join_instructions_that_take_arguments : gset Z :=
  let result :=
    hascompare dis ++ hasconst dis ++ hasfree dis ++ hasjabs dis
    ++ hasjrel dis ++ haslocal dis ++ hasname dis ++ hasnargs dis in
  list_to_set result.

(** [Disassembler(code, output_file)], for a [code] that is a code
    object already. *)
Definition __init__ (code_object : code) (output_file : list string)
  : exn + t :=
  match LineNumbering.__init__ code_object with
  | inl e => inl e
  | inr numbering =>
      inr {| output_file := output_file;
             _code_object := code_object;
             _bytecode := bytearray (co_code code_object);
             _instructions_taking_arguments :=
               _join_instructions_that_take_arguments;
             _program_counter := 0;
             _line_numbering := numbering |}
  end.

Definition _current_instruction : M t Z :=
  bytecode <- gets _bytecode ;;
  pc <- gets _program_counter ;;
  subscript bytecode pc.

Definition _load_constant (offset : Z) : M t Z :=
  bytecode <- gets _bytecode ;;
  b2 <- subscript bytecode (offset + 2) ;;
  let high_byte := Z.shiftl b2 8 in
  low_byte <- subscript bytecode (offset + 1) ;;
  ret (Z.lor high_byte low_byte).

Definition _load_function_call_arguments : M t object :=
  bytecode <- gets _bytecode ;;
  pc <- gets _program_counter ;;
  number_of_positional <- subscript bytecode (pc + 1) ;;
  number_of_keyword <- subscript bytecode (pc + 2) ;;
  ret (Str (pretty number_of_positional +:+ " positional, "
            +:+ pretty number_of_keyword +:+ " keyword pair")).

Definition _load_argument (instruction constant : Z) : M t object :=
  code_object <- gets _code_object ;;
  if bool_decide (instruction ∈ hasname dis) then
    name <- subscript (co_names code_object) constant ;;
    ret (Str name)
  else if bool_decide (instruction ∈ haslocal dis) then
    name <- subscript (co_varnames code_object) constant ;;
    ret (Str name)
  else if bool_decide (instruction ∈ hasconst dis) then
    subscript (co_consts code_object) constant
  else if bool_decide (instruction ∈ hasnargs dis) then
    _load_function_call_arguments
  else if bool_decide (instruction ∈ hasjrel dis) then
    pc <- gets _program_counter ;;
    ret (Int (pc + constant))
  else if bool_decide (instruction ∈ hasjabs dis) then
    ret (Int constant)
  else
    ret None_.

Definition _format_line_number : M t string :=
  pc <- gets _program_counter ;;
  new_line <- line_numbering (LineNumbering.at_new_line pc) ;;
  line_number <-
    (if new_line : bool then
       (if bool_decide (pc > 0) then print EmptyString else ret tt) ;;;
       numbering <- gets _line_numbering ;;
       let line_number := LineNumbering.line_number numbering in
       line_numbering LineNumbering.step ;;;
       ret (Int line_number)
     else if bool_decide (pc = 0) then
       numbering <- gets _line_numbering ;;
       ret (Int (LineNumbering.line_number numbering))
     else
       ret (Str EmptyString)) ;;
  ret (ljust (str line_number) LINE_WIDTH).

Definition _print_instruction (instruction : Z)
  (argument : option (Z * object)) : M t unit :=
  instruction_name <- subscript (opname dis) instruction ;;
  field <- _format_line_number ;;
  pc <- gets _program_counter ;;
  let line := field +:+ pretty pc +:+ " " +:+ instruction_name in
  let line :=
    match argument with
    | Some (constant, argument) =>
        ljust line FORMAT_WIDTH
        +:+ (pretty constant +:+ " (" +:+ str argument +:+ ")")
    | None => line
    end in
  print line.

Definition _disassemble_instruction (instruction : Z) : M t unit :=
  taking <- gets _instructions_taking_arguments ;;
  let takes_arguments := bool_decide (instruction ∈ taking) in
  (if takes_arguments then
     pc <- gets _program_counter ;;
     constant <- _load_constant pc ;;
     argument <- _load_argument instruction constant ;;
     _print_instruction instruction (Some (constant, argument)) ;;;
     modify (fun self => set__program_counter (_program_counter self + 2) self)
   else
     _print_instruction instruction None) ;;;
  modify (fun self => set__program_counter (_program_counter self + 1) self).

Definition _at_stop_sequence (instruction : Z) : M t bool :=
  if bool_decide (instruction <> POP_TOP) then ret false
  else
    pc <- gets _program_counter ;;
    bytecode <- gets _bytecode ;;
    if bool_decide (pc + 1 = len bytecode) then ret false
    else
      following <- subscript bytecode (pc + 1) ;;
      if bool_decide (following <> STOP_CODE) then ret false
      else ret true.

(** One turn of the [while] loop of [disassemble], its condition
    already tested. *)
Definition disassemble_body : M t unit :=
  instruction <- _current_instruction ;;
  stop <- _at_stop_sequence instruction ;;
  if stop : bool then
    modify (fun self => set__program_counter (_program_counter self + 2) self)
  else
    _disassemble_instruction instruction.

(** The [while] loop, for at most [fuel] turns; [None] when the turns
    run out before the loop has ended. *)
Fixpoint disassemble_loop (fuel : nat) (self : t)
  : option ((exn + unit) * t) :=
  if bool_decide (_program_counter self < len (_bytecode self)) then
    match fuel with
    | O => None
    | S fuel' =>
        match disassemble_body self with
        | (inr _, self') => disassemble_loop fuel' self'
        | (inl e, self') => Some (inl e, self')
        end
    end
  else Some (inr tt, self).

(** [disassemble()]: every turn moves the program counter forward, so
    the bytes that are left bound the number of turns. *)
Definition disassemble (self : t) : option ((exn + unit) * t) :=
  disassemble_loop
    (Z.to_nat (len (_bytecode self) - _program_counter self)) self.

(** The text [_print_instruction] builds from its parts. *)
Definition record (field : string) (pc : Z) (instruction_name : string)
  (argument : option (Z * object)) : string :=
  let line := field +:+ pretty pc +:+ " " +:+ instruction_name in
  match argument with
  | Some (constant, argument) =>
      ljust line FORMAT_WIDTH
      +:+ (pretty constant +:+ " (" +:+ str argument +:+ ")")
  | None => line
  end.

(** *** Vocabulary for the statements about whole streams *)

(** The stream holds bytes. *)
Definition bytes_in_range (self : t) : Prop :=
  Forall (fun z => 0 <= z < 256) (_bytecode self).

(** Two states of a disassembler over one code object. *)
Definition same_stream (self other : t) : Prop :=
  _bytecode self = _bytecode other
  /\ _code_object self = _code_object other
  /\ _instructions_taking_arguments self
     = _instructions_taking_arguments other.

(** Whether the two bytes at [pc] are the filler pair that the loop
    skips. *)
Definition stop_sequence_at (self : t) (pc : Z) : bool :=
  bool_decide (index (_bytecode self) pc = Some POP_TOP)
  && negb (bool_decide (pc + 1 = len (_bytecode self)))
  && bool_decide (index (_bytecode self) (pc + 1) = Some STOP_CODE).

(** Whether the opcode at [pc] is one that takes an argument. *)
Definition takes_arguments_at (self : t) (pc : Z) : bool :=
  match index (_bytecode self) pc with
  | Some instruction =>
      bool_decide (instruction ∈ _instructions_taking_arguments self)
  | None => false
  end.

(** The number of bytes the loop moves on by from an instruction that
    starts at [pc]. *)
Definition width (self : t) (pc : Z) : Z :=
  if stop_sequence_at self pc then 2
  else if takes_arguments_at self pc then 3
  else 1.

(** The offsets at which the loop, started where [self] stands, looks
    for an instruction. *)
Inductive instruction_start (self : t) : Z -> Prop :=
| start_here : instruction_start self (_program_counter self)
| start_next pc :
    instruction_start self pc ->
    pc < len (_bytecode self) ->
    instruction_start self (pc + width self pc).

(** Fewer than two bytes follow the opcode at [pc]. *)
Definition operand_incomplete (self : t) (pc : Z) : bool :=
  bool_decide (len (_bytecode self) <= pc + 2).

(** The opcode indexes a table and its operand lies outside it; the
    families are tried in the order of [_load_argument]. *)
Definition operand_out_of_range (self : t) (instruction constant : Z)
  : bool :=
  let code_object := _code_object self in
  if bool_decide (instruction ∈ hasname dis) then
    bool_decide (index (co_names code_object) constant = None)
  else if bool_decide (instruction ∈ haslocal dis) then
    bool_decide (index (co_varnames code_object) constant = None)
  else if bool_decide (instruction ∈ hasconst dis) then
    bool_decide (index (co_consts code_object) constant = None)
  else false.

(** The instruction that starts at [pc] cannot be disassembled. *)
Definition malformed_at (self : t) (pc : Z) : bool :=
  negb (stop_sequence_at self pc)
  && takes_arguments_at self pc
  && (operand_incomplete self pc
      || match _load_constant pc self, index (_bytecode self) pc with
         | (inr constant, _), Some instruction =>
             operand_out_of_range self instruction constant
         | _, _ => false
         end).

(** No instruction of the stream is malformed. *)
Definition well_formed (self : t) : Prop :=
  forall pc,
    instruction_start self pc -> pc < len (_bytecode self) ->
    malformed_at self pc = false.

(** *** Vocabulary for the line numbers in the listing *)

(** A record carries a line number when its first column is not
    blank. *)
Definition carries_line_number (line : string) : bool :=
  match line with
  | EmptyString => false
  | String c _ => negb (bool_decide (c = " "%char))
  end.

(** [annotated lines ns]: the records of [lines] that carry a line
    number carry, in order, the numbers [ns]. *)
Fixpoint annotated (lines : list string) (ns : list Z) : bool :=
  match lines with
  | [] => match ns with [] => true | _ :: _ => false end
  | line :: lines' =>
      if carries_line_number line then
        match ns with
        | [] => false
        | n :: ns' =>
            String.prefix (ljust (pretty n) LINE_WIDTH) line
            && annotated lines' ns'
        end
      else annotated lines' ns
  end.

(** [n] filler pairs, one after the other. *)
Definition filler (n : nat) : list Z :=
  concat (replicate n [POP_TOP; STOP_CODE]).

(** The text holds no newline character: printed, it is exactly one
    line of the sink. *)
Fixpoint one_line (text : string) : bool :=
  match text with
  | EmptyString => true
  | String c rest => negb (bool_decide (c = "010"%char)) && one_line rest
  end.

(** No opcode name, and no name, local name or constant of the code
    object, is written with a newline in it. *)
Definition tables_one_line (self : t) : Prop :=
  Forall (fun name => one_line name = true) (opname dis)
  /\ Forall (fun name => one_line name = true)
       (co_names (_code_object self))
  /\ Forall (fun name => one_line name = true)
       (co_varnames (_code_object self))
  /\ Forall (fun value => one_line (str value) = true)
       (co_consts (_code_object self)).

(** Among the texts printed, one per call of [print], no empty one is
    the last or is followed by another empty one.  Where every text is
    one line ([one_line]) these texts are the lines of the sink. *)
Fixpoint separated (lines : list string) : bool :=
  match lines with
  | [] => true
  | line :: rest =>
      if bool_decide (line = EmptyString) then
        match rest with
        | [] => false
        | next :: _ => negb (bool_decide (next = EmptyString))
        end
        && separated rest
      else separated rest
  end.

(** What holds of the listing while the loop runs: the records written
    since the sink held [out] carry line numbers that never decrease and
    never exceed the current one. *)
Definition listing_invariant (out : list string) (self : t) : Prop :=
  LineNumbering.line_steps_nonneg (_line_numbering self)
  /\ exists new ns,
      output_file self = out ++ new
      /\ annotated new ns = true
      /\ Sorted Z.le ns
      /\ Forall (fun n =>
                   n <= LineNumbering.line_number (_line_numbering self)) ns.

End WithDis.

End Disassembler.

(** ** Sample data for the examples *)

Module Sample.

Import Disassembler.

(** A [dis] module that names a handful of opcodes; every other opcode
    keeps the placeholder name [<n>]. *)
Definition def_op : list (Z * string) :=
  [ (1, "POP_TOP"); (23, "BINARY_ADD"); (83, "RETURN_VALUE");
    (90, "STORE_NAME"); (100, "LOAD_CONST"); (101, "LOAD_NAME");
    (107, "COMPARE_OP"); (110, "JUMP_FORWARD"); (113, "JUMP_ABSOLUTE");
    (124, "LOAD_FAST"); (131, "CALL_FUNCTION"); (136, "LOAD_DEREF") ].

Definition name_of (op : Z) : string :=
  match list_find (fun d => d.1 = op) def_op with
  | Some (_, d) => d.2
  | None => "<" +:+ pretty op +:+ ">"
  end.

Definition dis : dis_module :=
  {| opname := map name_of (seqZ 0 256);
     hascompare := [107];
     hasconst := [100];
     hasfree := [136];
     hasjabs := [113];
     hasjrel := [110];
     haslocal := [124];
     hasname := [90; 101];
     hasnargs := [131];
     opname_length := eq_refl |}.

(** The instruction stream [BINARY_ADD; LOAD_NAME 0], one name, first
    line 1 and the line table [(0, 0)]. *)
Definition two_records : code :=
  {| co_code := [x17; x65; x00; x00]%byte;
     co_names := ["x"];
     co_varnames := [];
     co_consts := [];
     co_firstlineno := 1;
     co_lnotab := [x00; x00]%byte |}.

(** [LOAD_NAME 5] with a single name: both operand bytes are there, the
    index is out of range. *)
Definition name_out_of_range : code :=
  {| co_code := [x65; x05; x00]%byte;
     co_names := ["x"];
     co_varnames := [];
     co_consts := [];
     co_firstlineno := 1;
     co_lnotab := [x00; x00]%byte |}.

(** A line table whose two pairs step by different numbers of lines:
    [(0, 1)] then [(6, 2)]. *)
Definition uneven_lines : code :=
  {| co_code := [x64; x00; x00; x5a; x00; x00;
                 x64; x01; x00; x5a; x01; x00]%byte;
     co_names := ["a"; "b"];
     co_varnames := [];
     co_consts := [Int 1; Int 2];
     co_firstlineno := 1;
     co_lnotab := [x00; x01; x06; x02]%byte |}.


(** Ten bytes of the opcode 9, which takes no argument, then
    [JUMP_FORWARD 5] at offset 10. *)
Definition jump_code : code :=
  {| co_code := [x09; x09; x09; x09; x09; x09; x09; x09; x09; x09;
                 x6e; x05; x00]%byte;
     co_names := [];
     co_varnames := [];
     co_consts := [];
     co_firstlineno := 1;
     co_lnotab := [x00; x00]%byte |}.

(** [CALL_FUNCTION] with the operand bytes 2 and 1. *)
Definition call_code : code :=
  {| co_code := [x83; x02; x01]%byte;
     co_names := [];
     co_varnames := [];
     co_consts := [];
     co_firstlineno := 1;
     co_lnotab := [x00; x00]%byte |}.

(** [COMPARE_OP 2]. *)
Definition compare_code : code :=
  {| co_code := [x6b; x02; x00]%byte;
     co_names := [];
     co_varnames := [];
     co_consts := [];
     co_firstlineno := 1;
     co_lnotab := [x00; x00]%byte |}.

(** Two filler pairs and nothing else. *)
Definition filler_code : code :=
  {| co_code := [x01; x00; x01; x00]%byte;
     co_names := [];
     co_varnames := [];
     co_consts := [];
     co_firstlineno := 1;
     co_lnotab := [x00; x00]%byte |}.

(** A line numbering that has run out of pairs. *)
Definition exhausted_numbering : LineNumbering.t :=
  {| LineNumbering._iterator := [];
     LineNumbering._steps :=
       {| LineNumbering.bytecode_step := 6; LineNumbering.line_step := 1 |};
     LineNumbering.line_number := 4;
     LineNumbering.next_address := 6;
     LineNumbering.is_exhausted := true |}.

(** The line numbering right after its construction from the line
    table [(0, 0)] and the first line 1. *)
Definition initial_numbering : LineNumbering.t :=
  {| LineNumbering._iterator := [];
     LineNumbering._steps :=
       {| LineNumbering.bytecode_step := 0; LineNumbering.line_step := 0 |};
     LineNumbering.line_number := 1;
     LineNumbering.next_address := 0;
     LineNumbering.is_exhausted := false |}.

(** The same for the line table [(0, 1); (6, 2)]. *)
Definition uneven_numbering : LineNumbering.t :=
  {| LineNumbering._iterator :=
       [{| LineNumbering.bytecode_step := 6; LineNumbering.line_step := 2 |}];
     LineNumbering._steps :=
       {| LineNumbering.bytecode_step := 0; LineNumbering.line_step := 1 |};
     LineNumbering.line_number := 2;
     LineNumbering.next_address := 0;
     LineNumbering.is_exhausted := false |}.

(** The operand part [x (0)], decoded operand first, and the same with
    the name in double quotes. *)
Definition decoded_then_raw : string := "x (0)".
Definition decoded_then_raw_quoted : string :=
  String "034"%char ("x" +:+ String "034"%char " (0)").

(** A line numbering whose next line starts at offset 6. *)
Definition waiting_numbering : LineNumbering.t :=
  {| LineNumbering._iterator := [];
     LineNumbering._steps :=
       {| LineNumbering.bytecode_step := 6; LineNumbering.line_step := 1 |};
     LineNumbering.line_number := 4;
     LineNumbering.next_address := 6;
     LineNumbering.is_exhausted := false |}.

(** A disassembler in the middle of its work: at [pc] in [c], nothing
    written yet. *)
Definition state (c : code) (pc : Z) (numbering : LineNumbering.t) : t :=
  {| output_file := [];
     _code_object := c;
     _bytecode := bytearray (co_code c);
     _instructions_taking_arguments :=
       _join_instructions_that_take_arguments dis;
     _program_counter := pc;
     _line_numbering := numbering |}.

End Sample.

(** * Properties *)

(** ** Strings *)

Module StringFacts.

Lemma append_cons c s t : String c s +:+ t = String c (s +:+ t).
Proof. reflexivity. Qed.

Lemma append_assoc s t u : (s +:+ t) +:+ u = s +:+ (t +:+ u).
Proof.
  induction s as [|c s IH]; [done|].
  by rewrite !append_cons, IH.
Qed.

Lemma prefix_append p s : String.prefix p (p +:+ s) = true.
Proof.
  induction p as [|c p IH]; [by destruct s|].
  rewrite append_cons. simpl. by destruct (ascii_dec c c).
Qed.

(** A record that starts with a padded field has that field as a
    prefix. *)
Lemma prefix_ljust_append s width rest :
  String.prefix (ljust s width) (ljust s width +:+ rest) = true.
Proof. apply prefix_append. Qed.

Lemma pretty_N_char_not_space d : pretty_N_char d <> " "%char.
Proof. unfold pretty_N_char. by repeat case_match. Qed.

Lemma pretty_N_go_first x s :
  (0 < x)%N ->
  exists d rest, pretty_N_go x s = String (pretty_N_char d) rest.
Proof.
  revert s. induction (N.lt_wf_0 x) as [x _ IH]. intros s Hpos.
  rewrite pretty_N_go_step by done.
  destruct (decide (x `div` 10 = 0)%N) as [->|Hdiv].
  - rewrite pretty_N_go_0. by eexists _, _.
  - apply IH; [apply N.div_lt; lia|by apply N.neq_0_lt_0].
Qed.

(** The decimal text of an integer starts with a digit or a sign. *)
Lemma pretty_Z_first (n : Z) :
  exists c rest, pretty n = String c rest /\ c <> " "%char.
Proof.
  assert (forall p : positive,
            exists c rest,
              pretty (Npos p) = String c rest /\ c <> " "%char) as Hpos.
  { intros p. unfold pretty, pretty_N.
    rewrite decide_False by done.
    destruct (pretty_N_go_first (Npos p) EmptyString) as (d & rest & ->);
      [lia|].
    eexists _, _. split; [done|]. apply pretty_N_char_not_space. }
  destruct n as [|p|p].
  - by eexists _, _.
  - apply Hpos.
  - unfold pretty, pretty_Z. by eexists _, _.
Qed.

Lemma carries_ljust_pretty (n : Z) width rest :
  Disassembler.carries_line_number (ljust (pretty n) width +:+ rest) = true.
Proof.
  destruct (pretty_Z_first n) as (c & text & -> & Hc).
  unfold ljust. rewrite !append_cons. simpl.
  by rewrite bool_decide_eq_false_2.
Qed.

End StringFacts.

(** ** The line numbering *)

Module LineNumberingFacts.

Import LineNumbering.

(** [at_new_line] as an equation: its answer, and the object as it was. *)
Lemma at_new_line_eq program_counter self :
  at_new_line program_counter self
  = (inr (negb (is_exhausted self)
          && bool_decide (program_counter >= next_address self)), self).
Proof.
  unfold at_new_line. run_py. by destruct (is_exhausted self).
Qed.

Lemma step_active self :
  is_exhausted self = false -> step self = (inr tt, stepped self).
Proof.
  intros Hactive. unfold step, _try_step, next_iterator, stepped. run_py.
  rewrite Hactive. destruct self as [[|s rest] held line address exhausted];
    simpl in *; by subst.
Qed.

Lemma step_exhausted self :
  is_exhausted self = true -> step self = (inl StopIteration, self).
Proof. intros Hex. unfold step. run_py. by rewrite Hex. Qed.

Lemma run_call_exhausted self c :
  is_exhausted self = true -> run_call self c = self.
Proof.
  intros Hex. destruct c as [|pc]; simpl.
  - by rewrite step_exhausted.
  - by rewrite at_new_line_eq.
Qed.

Lemma run_calls_exhausted calls self :
  is_exhausted self = true -> run_calls calls self = self.
Proof.
  unfold run_calls. revert self.
  induction calls as [|c calls IH]; intros self Hex; [done|].
  simpl. rewrite run_call_exhausted by done. by apply IH.
Qed.

Lemma stepped_nonneg self :
  line_steps_nonneg self ->
  line_steps_nonneg (stepped self)
  /\ line_number self <= line_number (stepped self).
Proof.
  intros [Hheld Hrest]. unfold stepped, line_steps_nonneg.
  destruct (_iterator self) as [|s rest] eqn:Hit; simpl.
  - repeat split; [done|constructor|lia].
  - inversion Hrest; subst. repeat split; [done|done|lia].
Qed.

Lemma run_call_nonneg self c :
  line_steps_nonneg self ->
  line_steps_nonneg (run_call self c)
  /\ line_number self <= line_number (run_call self c).
Proof.
  intros Hnn. destruct c as [|pc]; simpl.
  - destruct (is_exhausted self) eqn:Hex.
    + rewrite step_exhausted by done. simpl. split; [done|lia].
    + rewrite step_active by done. simpl. by apply stepped_nonneg.
  - rewrite at_new_line_eq. simpl. split; [done|lia].
Qed.

Lemma run_calls_nonneg calls self :
  line_steps_nonneg self ->
  line_steps_nonneg (run_calls calls self)
  /\ line_number self <= line_number (run_calls calls self).
Proof.
  unfold run_calls. revert self.
  induction calls as [|c calls IH]; intros self Hnn; simpl.
  - split; [done|lia].
  - destruct (run_call_nonneg self c Hnn) as [Hnn' Hle].
    destruct (IH _ Hnn') as [Hnn'' Hle'']. split; [done|lia].
Qed.

Lemma run_calls_app calls1 calls2 self :
  run_calls (calls1 ++ calls2) self = run_calls calls2 (run_calls calls1 self).
Proof. unfold run_calls. by rewrite foldl_app. Qed.

Lemma byte_to_Z_range b : 0 <= byte_to_Z b < 256.
Proof.
  unfold byte_to_Z. pose proof (Byte.to_N_bounded b). lia.
Qed.

Lemma bytearray_range bs : Forall (fun z => 0 <= z < 256) (bytearray bs).
Proof.
  unfold bytearray. apply Forall_fmap, Forall_forall. intros b _.
  apply byte_to_Z_range.
Qed.

Lemma every_other_Forall {A} (P : A -> Prop) (l : list A) :
  Forall P l -> Forall P (every_other l).
Proof.
  revert l. fix IH 1. intros [|x [|y l]] Hl; simpl.
  - constructor.
  - exact Hl.
  - inversion Hl as [|? ? Hx Hl']; subst.
    inversion Hl' as [|? ? Hy Hl'']; subst.
    constructor; [done|by apply IH].
Qed.

Lemma pairs_nonneg steps :
  Forall (fun z => 0 <= z) steps ->
  Forall (fun s => 0 <= line_step s) (pairs steps).
Proof.
  intros Hsteps. unfold pairs. apply Forall_fmap, Forall_forall.
  intros [b l] Hin. simpl.
  apply elem_of_zip_r in Hin.
  assert (Forall (fun z => 0 <= z) (every_other (tail steps))) as Htl.
  { apply every_other_Forall. destruct steps; simpl; [constructor|].
    by inversion Hsteps. }
  rewrite Forall_forall in Htl. by apply Htl.
Qed.

Lemma __init___nonneg code_object self :
  __init__ code_object = inr self -> line_steps_nonneg self.
Proof.
  unfold __init__. intros Hinit.
  assert (Forall (fun s => 0 <= line_step s)
            (pairs (bytearray (co_lnotab code_object)))) as Hpairs.
  { apply pairs_nonneg. eapply Forall_impl; [apply bytearray_range|].
    simpl. intros; lia. }
  destruct (pairs (bytearray (co_lnotab code_object))) as [|first rest];
    [done|].
  inversion Hinit; subst. inversion Hpairs; subst. by split.
Qed.

(** C3: [at_new_line] leaves the object as it was; its answer is false
    when the object is exhausted and [program_counter >= next_address]
    otherwise.  An exhausted object stays exhausted under every sequence
    of calls, so [at_new_line] keeps answering false. *)
Theorem at_new_line_query_and_exhaustion self program_counter calls :
  at_new_line program_counter self
  = (inr (if is_exhausted self then false
          else bool_decide (program_counter >= next_address self)), self)
  /\ (is_exhausted self = true ->
      is_exhausted (run_calls calls self) = true
      /\ at_new_line program_counter (run_calls calls self)
         = (inr false, run_calls calls self)).
Proof.
  split.
  - rewrite at_new_line_eq. by destruct (is_exhausted self).
  - intros Hex. rewrite run_calls_exhausted by done. split; [done|].
    rewrite at_new_line_eq. by rewrite Hex.
Qed.

Lemma at_new_line_query_and_exhaustion_witness :
  is_exhausted
    (run_calls [Call_step; Call_at_new_line 3; Call_step]
       Sample.exhausted_numbering) = true
  /\ at_new_line 7
       (run_calls [Call_step; Call_at_new_line 3; Call_step]
          Sample.exhausted_numbering)
     = (inr false,
        run_calls [Call_step; Call_at_new_line 3; Call_step]
          Sample.exhausted_numbering).
Proof.
  apply (at_new_line_query_and_exhaustion Sample.exhausted_numbering 7
           [Call_step; Call_at_new_line 3; Call_step]).
  reflexivity.
Defined.

(** C2: on the line table [(0, 1); (6, 2)] with first line 1, [step]
    adds the line step of the pair it holds (1) and not that of the pair
    it fetches (2): the line number goes from 2 to 3.  The [step] that
    finds the table empty still adds a line step: from 3 to 5. *)
Theorem step_adds_held_line_step :
  exists m0 m1 m2,
    __init__ Sample.uneven_lines = inr m0
    /\ line_number m0 = 2 /\ next_address m0 = 0
    /\ _iterator m0 = [{| bytecode_step := 6; line_step := 2 |}]
    /\ step m0 = (inr tt, m1)
    /\ line_number m1 = 3 /\ next_address m1 = 6
    /\ is_exhausted m1 = false /\ _iterator m1 = []
    /\ step m1 = (inr tt, m2)
    /\ line_number m2 = 5 /\ next_address m2 = 6
    /\ is_exhausted m2 = true.
Proof.
  eexists _, _, _. split; [reflexivity|].
  do 3 (split; [reflexivity|]).
  split; [reflexivity|].
  do 4 (split; [reflexivity|]).
  split; [reflexivity|].
  repeat split.
Qed.

End LineNumberingFacts.

(** ** The disassembler, one instruction at a time *)

Module DisassemblerFacts.

Import Disassembler.
Import LineNumberingFacts.

Section WithDis.

Variable dis : dis_module.

Implicit Types (self : t) (instruction constant : Z).

Lemma set__line_numbering_same self :
  set__line_numbering (_line_numbering self) self = self.
Proof. by destruct self. Qed.

Lemma index_Some_lt {A} (l : list A) i x :
  0 <= i -> index l i = Some x -> i < len l.
Proof.
  intros Hi. unfold index, len. rewrite decide_True by done.
  intros Hx%lookup_lt_Some. lia.
Qed.

Lemma index_is_Some {A} (l : list A) i :
  0 <= i < len l -> is_Some (index l i).
Proof.
  intros Hi. unfold index, len in *. rewrite decide_True by lia.
  apply lookup_lt_is_Some. lia.
Qed.

Lemma index_None_ge {A} (l : list A) i :
  0 <= i -> index l i = None -> len l <= i.
Proof.
  intros Hi Hnone. destruct (decide (i < len l)) as [Hlt|]; [|lia].
  destruct (index_is_Some l i) as [x Hx]; [lia|congruence].
Qed.

Lemma index_opname instruction :
  0 <= instruction < 256 -> is_Some (index (opname dis) instruction).
Proof.
  intros Hi. apply index_is_Some. unfold len. rewrite opname_length. lia.
Qed.

(** [_load_constant] reads the high byte first. *)
Lemma _load_constant_eq self offset :
  _load_constant offset self
  = (match index (_bytecode self) (offset + 2),
           index (_bytecode self) (offset + 1) with
     | Some high, Some low => inr (Z.lor (Z.shiftl high 8) low)
     | _, _ => inl IndexError
     end, self).
Proof.
  unfold _load_constant. run_py.
  destruct (index (_bytecode self) (offset + 2)); [|done].
  by destruct (index (_bytecode self) (offset + 1)).
Qed.

Lemma _load_function_call_arguments_eq self :
  _load_function_call_arguments self
  = (match index (_bytecode self) (_program_counter self + 1),
           index (_bytecode self) (_program_counter self + 2) with
     | Some positional, Some keyword =>
         inr (Str (pretty positional +:+ " positional, "
                   +:+ pretty keyword +:+ " keyword pair"))
     | _, _ => inl IndexError
     end, self).
Proof.
  unfold _load_function_call_arguments. run_py.
  destruct (index (_bytecode self) (_program_counter self + 1)); [|done].
  by destruct (index (_bytecode self) (_program_counter self + 2)).
Qed.

(** Decoding an operand reads the object and changes nothing. *)
Lemma _load_argument_state self instruction constant :
  (_load_argument dis instruction constant self).2 = self.
Proof.
  unfold _load_argument. run_py.
  repeat case_bool_decide; simpl;
    rewrite ?_load_function_call_arguments_eq;
    repeat (match goal with |- context [index ?l ?i] =>
                              destruct (index l i) end);
    done.
Qed.

Lemma _load_argument_pair self instruction constant :
  _load_argument dis instruction constant self
  = ((_load_argument dis instruction constant self).1, self).
Proof.
  rewrite <- (_load_argument_state self instruction constant) at 3.
  by destruct (_load_argument dis instruction constant self).
Qed.

(** The state [_format_line_number] leaves behind. *)
Lemma _format_line_number_eq self :
  let numbering := _line_numbering self in
  let pc := _program_counter self in
  _format_line_number self
  = if negb (LineNumbering.is_exhausted numbering)
       && bool_decide (pc >= LineNumbering.next_address numbering)
    then
      (inr (ljust (pretty (LineNumbering.line_number numbering)) LINE_WIDTH),
       set__line_numbering (LineNumbering.stepped numbering)
         (if bool_decide (pc > 0)
          then set_output_file (output_file self ++ [EmptyString]) self
          else self))
    else
      (inr (ljust (if bool_decide (pc = 0)
                   then pretty (LineNumbering.line_number numbering)
                   else EmptyString) LINE_WIDTH),
       self).
Proof.
  intros numbering pc. subst numbering pc.
  unfold _format_line_number, line_numbering, print. run_py.
  rewrite at_new_line_eq.
  destruct (LineNumbering.is_exhausted (_line_numbering self)) eqn:Hex;
    simpl.
  { rewrite set__line_numbering_same.
    case_bool_decide; simpl; by rewrite ?set__line_numbering_same. }
  case_bool_decide as Hnew; simpl; rewrite set__line_numbering_same.
  - case_bool_decide; simpl; by rewrite step_active.
  - by case_bool_decide.
Qed.

(** [_format_line_number] never raises and touches neither the program
    counter nor the stream. *)
Lemma _format_line_number_frame self :
  exists field self',
    _format_line_number self = (inr field, self')
    /\ _program_counter self' = _program_counter self
    /\ _bytecode self' = _bytecode self
    /\ _code_object self' = _code_object self
    /\ _instructions_taking_arguments self'
       = _instructions_taking_arguments self.
Proof.
  rewrite _format_line_number_eq. simpl.
  destruct (negb _ && _); [|by eexists _, _].
  eexists _, _. split; [done|]. by case_bool_decide.
Qed.

Lemma _print_instruction_eq self instruction argument name field self1 :
  index (opname dis) instruction = Some name ->
  _format_line_number self = (inr field, self1) ->
  _print_instruction dis instruction argument self
  = (inr tt,
     set_output_file
       (output_file self1
        ++ [record dis field (_program_counter self) name argument]) self1).
Proof.
  intros Hname Hfield.
  destruct (_format_line_number_frame self) as (f & s & Heq & Hpc & _).
  rewrite Hfield in Heq. inversion Heq; subst f s.
  unfold _print_instruction, print. run_py.
  rewrite Hname, Hfield, Hpc. by destruct argument as [[??]|].
Qed.


(** [_disassemble_instruction], for an opcode that has a name. *)
Lemma _disassemble_instruction_eq self instruction name field self1 :
  index (opname dis) instruction = Some name ->
  _format_line_number self = (inr field, self1) ->
  let pc := _program_counter self in
  _disassemble_instruction dis instruction self
  = if bool_decide (instruction ∈ _instructions_taking_arguments self) then
      match (_load_constant pc self).1 with
      | inl e => (inl e, self)
      | inr constant =>
          match (_load_argument dis instruction constant self).1 with
          | inl e => (inl e, self)
          | inr argument =>
              (inr tt,
               set__program_counter (pc + 2 + 1)
                 (set_output_file
                    (output_file self1
                     ++ [record dis field pc name
                           (Some (constant, argument))]) self1))
          end
      end
    else
      (inr tt,
       set__program_counter (pc + 1)
         (set_output_file
            (output_file self1 ++ [record dis field pc name None]) self1)).
Proof.
  intros Hname Hfield pc. subst pc.
  destruct (_format_line_number_frame self) as (f & s & Heq & Hpc & _).
  rewrite Hfield in Heq. inversion Heq; subst f s.
  unfold _disassemble_instruction.
  cbv beta iota delta [bind gets modify].
  case_bool_decide as Htakes.
  - rewrite _load_constant_eq. simpl.
    destruct (index (_bytecode self) (_program_counter self + 2)) as [high|];
      [|done].
    destruct (index (_bytecode self) (_program_counter self + 1)) as [low|];
      [|done].
    rewrite _load_argument_pair.
    destruct (_load_argument dis instruction _ self).1 as [e|argument];
      [done|].
    rewrite (_print_instruction_eq _ _ _ _ _ _ Hname Hfield). simpl.
    by rewrite Hpc.
  - rewrite (_print_instruction_eq _ _ _ _ _ _ Hname Hfield). simpl.
    by rewrite Hpc.
Qed.

(** The only exception decoding can raise is [IndexError]. *)
Lemma _load_argument_raises self instruction constant e :
  (_load_argument dis instruction constant self).1 = inl e -> e = IndexError.
Proof.
  unfold _load_argument. run_py.
  repeat case_bool_decide; simpl;
    rewrite ?_load_function_call_arguments_eq;
    repeat (match goal with |- context [index ?l ?i] =>
                              destruct (index l i) end);
    simpl; congruence.
Qed.

(** Decoding succeeds exactly when the operand is within its table, the
    operand bytes being there. *)
Lemma _load_argument_in_range self instruction constant low high :
  index (_bytecode self) (_program_counter self + 1) = Some low ->
  index (_bytecode self) (_program_counter self + 2) = Some high ->
  operand_out_of_range dis self instruction constant = false ->
  exists argument,
    _load_argument dis instruction constant self = (inr argument, self).
Proof.
  intros Hlow Hhigh. unfold operand_out_of_range, _load_argument. run_py.
  repeat case_bool_decide; simpl;
    rewrite ?_load_function_call_arguments_eq, ?Hlow, ?Hhigh;
    intros Hrange; try done; try (by eexists).
  all: match goal with H : index ?l ?i <> None |- _ =>
         destruct (index l i) eqn:? end; [by eexists|done].
Qed.

Lemma _load_argument_out_of_range self instruction constant :
  operand_out_of_range dis self instruction constant = true ->
  _load_argument dis instruction constant self = (inl IndexError, self).
Proof.
  unfold operand_out_of_range, _load_argument. run_py.
  repeat case_bool_decide; simpl; intros Hrange; try done.
  all: match goal with H : index ?l ?i = None |- _ => by rewrite H end.
Qed.

Lemma lor_bytes low high :
  0 <= low < 256 -> 0 <= high ->
  Z.lor (Z.shiftl high 8) low = high * 256 + low.
Proof.
  intros Hlow Hhigh.
  assert (Z.land (Z.shiftl high 8) low = 0) as Hdisjoint.
  { apply Z.bits_inj'. intros n Hn.
    rewrite Z.land_spec, Z.bits_0.
    destruct (decide (n < 8)) as [Hlt|Hge].
    - by rewrite Z.shiftl_spec_low.
    - rewrite (Z.bits_above_log2 low n), andb_false_r; [done|lia|].
      destruct (decide (low = 0)) as [->|]; [simpl; lia|].
      assert (Z.log2 low < 8); [|lia].
      apply Z.log2_lt_pow2; lia. }
  rewrite <- Z.lxor_lor, <- Z.add_nocarry_lxor by done.
  rewrite Z.shiftl_mul_pow2 by lia. lia.
Qed.

Lemma split_bytes low high :
  0 <= low < 256 -> 0 <= high ->
  Z.land (Z.lor (Z.shiftl high 8) low) 255 = low
  /\ Z.shiftr (Z.lor (Z.shiftl high 8) low) 8 = high.
Proof.
  intros Hlow Hhigh. rewrite lor_bytes by done. split.
  - change 255 with (Z.ones 8). rewrite Z.land_ones by lia.
    change (2 ^ 8) with 256. rewrite Z.add_comm, Z.mod_add by lia.
    apply Z.mod_small. lia.
  - rewrite Z.shiftr_div_pow2 by lia. change (2 ^ 8) with 256.
    rewrite Z.add_comm, Z.div_add by lia. rewrite Z.div_small by lia. lia.
Qed.


(** *** Decoding the operand *)

(** C6: for an opcode of the relative-jump family (and of no family tried
    before it), the decoded operand is the offset at which the
    instruction starts plus the raw operand; at offset 10 with raw
    operand 5 it is 15. *)
Theorem relative_jump_target self instruction constant :
  instruction ∉ hasname dis ++ haslocal dis ++ hasconst dis ++ hasnargs dis ->
  instruction ∈ hasjrel dis ->
  _load_argument dis instruction constant self
  = (inr (Int (_program_counter self + constant)), self)
  /\ (_program_counter self = 10 -> constant = 5 ->
      _load_argument dis instruction constant self = (inr (Int 15), self)).
Proof.
  intros Hnot Hjrel. rewrite !not_elem_of_app in Hnot.
  destruct Hnot as (Hname & Hlocal & Hconst & Hnargs).
  assert (_load_argument dis instruction constant self
          = (inr (Int (_program_counter self + constant)), self)) as Heq.
  { unfold _load_argument. run_py.
    rewrite !bool_decide_eq_false_2 by done.
    by rewrite bool_decide_eq_true_2. }
  split; [done|]. intros Hpc ->. by rewrite Heq, Hpc.
Qed.

(** C7: for an opcode of the call family (and of no family tried before
    it), the low byte of the raw operand is the number of positional
    arguments and its high byte the number of keyword pairs, and the
    decoded operand is the text naming both; the bytes 2 and 1 give
    [2 positional, 1 keyword pair]. *)
Theorem call_arity_pair self instruction low high :
  instruction ∉ hasname dis ++ haslocal dis ++ hasconst dis ->
  instruction ∈ hasnargs dis ->
  index (_bytecode self) (_program_counter self + 1) = Some low ->
  index (_bytecode self) (_program_counter self + 2) = Some high ->
  0 <= low < 256 -> 0 <= high < 256 ->
  exists constant,
    _load_constant (_program_counter self) self = (inr constant, self)
    /\ Z.land constant 255 = low
    /\ Z.shiftr constant 8 = high
    /\ _load_argument dis instruction constant self
       = (inr (Str (pretty (Z.land constant 255) +:+ " positional, "
                    +:+ pretty (Z.shiftr constant 8) +:+ " keyword pair")),
          self)
    /\ (low = 2 -> high = 1 ->
        _load_argument dis instruction constant self
        = (inr (Str "2 positional, 1 keyword pair"), self)).
Proof.
  intros Hnot Hnargs Hlow Hhigh Hl Hh. rewrite !not_elem_of_app in Hnot.
  destruct Hnot as (Hname & Hlocal & Hconst).
  exists (Z.lor (Z.shiftl high 8) low).
  destruct (split_bytes low high) as [Hland Hshiftr]; [lia..|].
  assert (_load_argument dis instruction (Z.lor (Z.shiftl high 8) low) self
          = (inr (Str (pretty low +:+ " positional, "
                       +:+ pretty high +:+ " keyword pair")), self)) as Heq.
  { unfold _load_argument. run_py.
    rewrite !bool_decide_eq_false_2 by done.
    rewrite bool_decide_eq_true_2 by done.
    by rewrite _load_function_call_arguments_eq, Hlow, Hhigh. }
  rewrite _load_constant_eq, Hlow, Hhigh, Hland, Hshiftr.
  repeat split; [done|]. intros -> ->. by rewrite Heq.
Qed.

(** *** The line-number column *)

Lemma record_starts_with_field field pc name argument :
  exists rest, record dis field pc name argument = field +:+ rest.
Proof.
  unfold record. destruct argument as [[constant argument]|].
  - unfold ljust. rewrite !StringFacts.append_assoc. by eexists.
  - by eexists.
Qed.



(** *** One instruction with an operand *)

Lemma _disassemble_instruction_unnamed self instruction :
  index (opname dis) instruction = None ->
  (_disassemble_instruction dis instruction self).1 = inl IndexError.
Proof.
  intros Hnone. unfold _disassemble_instruction.
  cbv beta iota delta [bind gets modify].
  assert (forall argument s,
            _print_instruction dis instruction argument s
            = (inl IndexError, s)) as Hprint.
  { intros argument s. unfold _print_instruction. run_py. by rewrite Hnone. }
  case_bool_decide.
  - rewrite _load_constant_eq.
    destruct (index (_bytecode self) (_program_counter self + 2)); [|done].
    destruct (index (_bytecode self) (_program_counter self + 1)); [|done].
    rewrite _load_argument_pair.
    destruct (_load_argument dis instruction _ self).1 as [e|argument] eqn:He.
    + by apply _load_argument_raises in He as ->.
    + by rewrite Hprint.
  - by rewrite Hprint.
Qed.

(** C1, as the code has it: the record of an instruction with an operand
    is the line-number column, the offset and the opcode's name, padded
    to the fixed column, then the raw operand and, in parentheses, the
    decoded operand.  For an opcode of the name family with raw operand
    0 and the names [["x"]] the operand part reads [0 (x)]. *)
Theorem operand_record self instruction self' :
  instruction ∈ _instructions_taking_arguments self ->
  _disassemble_instruction dis instruction self = (inr tt, self') ->
  let pc := _program_counter self in
  exists constant argument name field self1,
    _load_constant pc self = (inr constant, self)
    /\ _load_argument dis instruction constant self = (inr argument, self)
    /\ index (opname dis) instruction = Some name
    /\ _format_line_number self = (inr field, self1)
    /\ output_file self'
       = output_file self1
         ++ [ljust (field +:+ pretty pc +:+ " " +:+ name) (FORMAT_WIDTH dis)
             +:+ (pretty constant +:+ " (" +:+ str argument +:+ ")")]
    /\ (instruction ∈ hasname dis -> constant = 0 ->
        co_names (_code_object self) = ["x"] ->
        pretty constant +:+ " (" +:+ str argument +:+ ")" = "0 (x)").
Proof.
  intros Htakes Hrun pc.
  destruct (index (opname dis) instruction) as [name|] eqn:Hname; cycle 1.
  { pose proof (_disassemble_instruction_unnamed self instruction Hname)
      as Hraise. by rewrite Hrun in Hraise. }
  destruct (_format_line_number_frame self) as (field & self1 & Hfield & _).
  rewrite (_disassemble_instruction_eq _ _ _ _ _ Hname Hfield) in Hrun.
  simpl in Hrun. rewrite bool_decide_eq_true_2 in Hrun by done.
  fold pc in Hrun.
  pose proof (_load_constant_eq self pc) as Hconstant.
  destruct (_load_constant pc self).1 as [e|constant] eqn:Hc; [done|].
  pose proof (_load_argument_pair self instruction constant) as Hargument.
  destruct (_load_argument dis instruction constant self).1
    as [e|argument] eqn:Ha; [done|].
  exists constant, argument, name, field, self1.
  split.
  { rewrite Hconstant in Hc |- *. simpl in Hc. by rewrite Hc. }
  split; [done|]. split; [done|]. split; [done|].
  split; [by inversion Hrun|].
  intros Hfamily -> Hnames.
  revert Hargument. unfold _load_argument. run_py.
  rewrite bool_decide_eq_true_2, Hnames by done. simpl.
  by intros [= <-].
Qed.

(** C5, as the code has it: an opcode that takes an argument, followed
    by its two operand bytes and, when it indexes a table, with an
    operand inside that table, moves the program counter by exactly 3;
    the operand is the byte after the opcode or-ed with the next byte
    shifted left by 8. *)
Theorem operand_bearing_advance self instruction low high :
  instruction ∈ _instructions_taking_arguments self ->
  0 <= instruction < 256 ->
  index (_bytecode self) (_program_counter self + 1) = Some low ->
  index (_bytecode self) (_program_counter self + 2) = Some high ->
  operand_out_of_range dis self instruction (Z.lor low (Z.shiftl high 8))
  = false ->
  exists self',
    _disassemble_instruction dis instruction self = (inr tt, self')
    /\ _program_counter self' = _program_counter self + 3
    /\ _load_constant (_program_counter self) self
       = (inr (Z.lor low (Z.shiftl high 8)), self).
Proof.
  intros Htakes Hrange Hlow Hhigh Hin.
  destruct (index_opname instruction Hrange) as [name Hname].
  destruct (_format_line_number_frame self)
    as (field & self1 & Hfield & Hpc & _).
  destruct (_load_argument_in_range _ _ _ _ _ Hlow Hhigh Hin)
    as [argument Hargument].
  rewrite (_disassemble_instruction_eq _ _ _ _ _ Hname Hfield). simpl.
  rewrite bool_decide_eq_true_2 by done.
  rewrite _load_constant_eq, Hlow, Hhigh. simpl.
  rewrite (Z.lor_comm (Z.shiftl high 8) low), Hargument. simpl.
  eexists. split; [done|]. simpl. split; [lia|done].
Qed.

(** C10: an opcode of the comparison or free-variable family that is in
    none of the six decoded families still takes an argument: with its
    two operand bytes there, the program counter moves by exactly 3, the
    decoded operand is [None], and the record shows the raw operand
    followed by [(None)]. *)
Theorem undecoded_family_operand self instruction low high :
  _instructions_taking_arguments self
  = _join_instructions_that_take_arguments dis ->
  instruction ∈ hascompare dis ++ hasfree dis ->
  instruction ∉ hasname dis ++ haslocal dis ++ hasconst dis
                ++ hasnargs dis ++ hasjrel dis ++ hasjabs dis ->
  0 <= instruction < 256 ->
  index (_bytecode self) (_program_counter self + 1) = Some low ->
  index (_bytecode self) (_program_counter self + 2) = Some high ->
  let pc := _program_counter self in
  let constant := Z.lor (Z.shiftl high 8) low in
  instruction ∈ _instructions_taking_arguments self
  /\ _load_constant pc self = (inr constant, self)
  /\ _load_argument dis instruction constant self = (inr None_, self)
  /\ exists name field self1 self',
      index (opname dis) instruction = Some name
      /\ _format_line_number self = (inr field, self1)
      /\ _disassemble_instruction dis instruction self = (inr tt, self')
      /\ _program_counter self' = pc + 3
      /\ output_file self'
         = output_file self1
           ++ [ljust (field +:+ pretty pc +:+ " " +:+ name) (FORMAT_WIDTH dis)
               +:+ (pretty constant +:+ " (None)")].
Proof.
  intros Hset Hfamily Hnot Hrange Hlow Hhigh pc constant.
  subst pc constant.
  rewrite !not_elem_of_app in Hnot.
  destruct Hnot as (Hname' & Hlocal & Hconst & Hnargs & Hjrel & Hjabs).
  assert (instruction ∈ _instructions_taking_arguments self) as Htakes.
  { rewrite Hset. unfold _join_instructions_that_take_arguments.
    rewrite elem_of_list_to_set, !elem_of_app.
    apply elem_of_app in Hfamily as [?|?]; auto. }
  assert (forall constant,
            _load_argument dis instruction constant self = (inr None_, self))
    as Hargument.
  { intros constant. unfold _load_argument. run_py.
    by rewrite !bool_decide_eq_false_2. }
  assert (_load_constant (_program_counter self) self
          = (inr (Z.lor (Z.shiftl high 8) low), self)) as Hconstant.
  { by rewrite _load_constant_eq, Hlow, Hhigh. }
  do 3 (split; [done|]).
  destruct (index_opname instruction Hrange) as [name Hname].
  destruct (_format_line_number_frame self)
    as (field & self1 & Hfield & Hpc & _).
  exists name, field, self1.
  rewrite (_disassemble_instruction_eq _ _ _ _ _ Hname Hfield). simpl.
  rewrite bool_decide_eq_true_2 by done.
  rewrite Hconstant. simpl. rewrite Hargument. simpl.
  eexists. do 3 (split; [done|]). simpl. split; [lia|done].
Qed.

End WithDis.

(** ** The whole walk *)

Section Walk.

Variable dis : dis_module.

Implicit Types (self : t) (instruction constant : Z).

Lemma same_stream_refl self : same_stream self self.
Proof. by repeat split. Qed.

Lemma same_stream_trans s1 s2 s3 :
  same_stream s1 s2 -> same_stream s2 s3 -> same_stream s1 s3.
Proof. intros (?&?&?) (?&?&?). repeat split; congruence. Qed.

Lemma stop_sequence_at_same s1 s2 pc :
  same_stream s1 s2 -> stop_sequence_at s1 pc = stop_sequence_at s2 pc.
Proof. intros (Hb&_&_). unfold stop_sequence_at. by rewrite Hb. Qed.

Lemma takes_arguments_at_same s1 s2 pc :
  same_stream s1 s2 -> takes_arguments_at s1 pc = takes_arguments_at s2 pc.
Proof. intros (Hb&_&Ht). unfold takes_arguments_at. by rewrite Hb, Ht. Qed.

Lemma width_same s1 s2 pc :
  same_stream s1 s2 -> width s1 pc = width s2 pc.
Proof.
  intros Hsame. unfold width.
  by rewrite (stop_sequence_at_same _ _ _ Hsame),
    (takes_arguments_at_same _ _ _ Hsame).
Qed.

Lemma malformed_at_same s1 s2 pc :
  same_stream s1 s2 -> malformed_at dis s1 pc = malformed_at dis s2 pc.
Proof.
  intros Hsame. unfold malformed_at.
  rewrite (stop_sequence_at_same _ _ _ Hsame),
    (takes_arguments_at_same _ _ _ Hsame).
  destruct Hsame as (Hb&Hc&_).
  unfold operand_incomplete, operand_out_of_range.
  rewrite !_load_constant_eq, Hb, Hc. simpl.
  by repeat case_match.
Qed.

Lemma width_pos self pc : 1 <= width self pc <= 3.
Proof. unfold width. repeat case_match; lia. Qed.

Lemma _current_instruction_eq self :
  _current_instruction self
  = (match index (_bytecode self) (_program_counter self) with
     | Some instruction => inr instruction
     | None => inl IndexError
     end, self).
Proof.
  unfold _current_instruction. run_py.
  by destruct (index (_bytecode self) (_program_counter self)).
Qed.

Lemma _at_stop_sequence_eq self instruction :
  0 <= _program_counter self < len (_bytecode self) ->
  index (_bytecode self) (_program_counter self) = Some instruction ->
  _at_stop_sequence instruction self
  = (inr (stop_sequence_at self (_program_counter self)), self).
Proof.
  intros Hpc Hinstruction. unfold _at_stop_sequence, stop_sequence_at.
  run_py. rewrite Hinstruction.
  case_bool_decide as Hpop; simpl.
  { rewrite bool_decide_eq_false_2; [done|congruence]. }
  subst instruction.
  rewrite (bool_decide_eq_true_2 (Some POP_TOP = Some POP_TOP)) by done.
  case_bool_decide as Hend; simpl; [done|].
  destruct (index_is_Some (_bytecode self) (_program_counter self + 1))
    as [following Hfollowing]; [lia|].
  rewrite Hfollowing. case_bool_decide as Hstop; simpl.
  - rewrite bool_decide_eq_false_2; [done|congruence].
  - subst following.
    by rewrite bool_decide_eq_true_2.
Qed.

(** One turn of the loop on a stream of bytes, in full. *)
Lemma disassemble_body_eq self :
  bytes_in_range self ->
  0 <= _program_counter self < len (_bytecode self) ->
  let pc := _program_counter self in
  exists instruction name field self1,
    index (_bytecode self) pc = Some instruction
    /\ index (opname dis) instruction = Some name
    /\ _format_line_number self = (inr field, self1)
    /\ disassemble_body dis self
       = if stop_sequence_at self pc then
           (inr tt, set__program_counter (pc + 2) self)
         else if bool_decide
                   (instruction ∈ _instructions_taking_arguments self) then
           match (_load_constant pc self).1 with
           | inl e => (inl e, self)
           | inr constant =>
               match (_load_argument dis instruction constant self).1 with
               | inl e => (inl e, self)
               | inr argument =>
                   (inr tt,
                    set__program_counter (pc + 2 + 1)
                      (set_output_file
                         (output_file self1
                          ++ [record dis field pc name
                                (Some (constant, argument))]) self1))
               end
           end
         else
           (inr tt,
            set__program_counter (pc + 1)
              (set_output_file
                 (output_file self1 ++ [record dis field pc name None])
                 self1)).
Proof.
  intros Hbytes Hpc pc. subst pc.
  destruct (index_is_Some (_bytecode self) (_program_counter self) Hpc)
    as [instruction Hinstruction].
  assert (0 <= instruction < 256) as Hrange.
  { unfold bytes_in_range in Hbytes. rewrite Forall_forall in Hbytes.
    apply Hbytes. unfold index in Hinstruction.
    rewrite decide_True in Hinstruction by lia.
    by eapply list_elem_of_lookup_2. }
  destruct (index_opname dis instruction Hrange) as [name Hname].
  destruct (_format_line_number_frame self) as (field & self1 & Hfield & _).
  exists instruction, name, field, self1. do 3 (split; [done|]).
  unfold disassemble_body. cbv beta iota delta [bind modify].
  rewrite _current_instruction_eq, Hinstruction.
  rewrite (_at_stop_sequence_eq _ _ Hpc Hinstruction).
  destruct (stop_sequence_at self (_program_counter self)); [done|].
  by rewrite (_disassemble_instruction_eq dis _ _ _ _ _ Hname Hfield).
Qed.

(** A turn either raises [IndexError] at a malformed instruction,
    leaving the object as it was, or moves on by the instruction's
    width. *)
Lemma disassemble_body_cases self :
  bytes_in_range self ->
  0 <= _program_counter self < len (_bytecode self) ->
  let pc := _program_counter self in
  (malformed_at dis self pc = true
   /\ disassemble_body dis self = (inl IndexError, self))
  \/ (malformed_at dis self pc = false
      /\ exists self',
          disassemble_body dis self = (inr tt, self')
          /\ _program_counter self' = pc + width self pc
          /\ same_stream self' self).
Proof.
  intros Hbytes Hpc pc. subst pc.
  destruct (disassemble_body_eq self Hbytes Hpc)
    as (instruction & name & field & self1 & Hinstruction & Hname
        & Hfield & ->).
  destruct (_format_line_number_frame self)
    as (f & s & Heq & Hpc1 & Hb1 & Hc1 & Ht1).
  rewrite Hfield in Heq. inversion Heq; subst f s.
  unfold malformed_at, width, takes_arguments_at. rewrite Hinstruction.
  destruct (stop_sequence_at self (_program_counter self)); simpl.
  { right. split; [done|]. eexists. split; [done|]. by repeat split. }
  case_bool_decide as Htakes; simpl; cycle 1.
  { right. split; [done|]. eexists. split; [done|]. by repeat split. }
  unfold operand_incomplete. rewrite _load_constant_eq. simpl.
  destruct (index (_bytecode self) (_program_counter self + 2))
    as [high|] eqn:Hhigh; cycle 1.
  { left. apply index_None_ge in Hhigh; [|lia].
    by rewrite bool_decide_eq_true_2. }
  apply index_Some_lt in Hhigh as Hlt; [|lia].
  rewrite bool_decide_eq_false_2 by lia.
  destruct (index_is_Some (_bytecode self) (_program_counter self + 1))
    as [low Hlow]; [lia|].
  rewrite Hlow. simpl.
  destruct (operand_out_of_range dis self instruction
              (Z.lor (Z.shiftl high 8) low)) eqn:Hout.
  - left. by rewrite (_load_argument_out_of_range dis _ _ _ Hout).
  - right. split; [done|].
    destruct (_load_argument_in_range dis _ _ _ _ _ Hlow Hhigh Hout)
      as [argument ->]. simpl.
    eexists. split; [done|]. simpl. split; [lia|]. by repeat split.
Qed.

(** The loop ends within the turns it is given, and what holds turn by
    turn holds at its end. *)
Lemma disassemble_loop_invariant (P : t -> Prop)
  (Q : exn + unit -> t -> Prop) :
  (forall self, P self ->
     _program_counter self < len (_bytecode self) ->
     (exists self',
        disassemble_body dis self = (inr tt, self')
        /\ P self'
        /\ _program_counter self < _program_counter self'
        /\ _bytecode self' = _bytecode self)
     \/ (exists e self',
           disassemble_body dis self = (inl e, self')
           /\ Q (inl e) self')) ->
  (forall self, P self ->
     len (_bytecode self) <= _program_counter self -> Q (inr tt) self) ->
  forall fuel self,
    P self ->
    (Z.to_nat (len (_bytecode self) - _program_counter self) <= fuel)%nat ->
    exists r self',
      disassemble_loop dis fuel self = Some (r, self') /\ Q r self'.
Proof.
  intros Hturn Hend fuel.
  induction fuel as [|fuel IH]; intros self HP Hfuel; simpl.
  - rewrite bool_decide_eq_false_2 by lia.
    eexists _, _. split; [done|]. apply Hend; [done|lia].
  - case_bool_decide as Hpc; cycle 1.
    { eexists _, _. split; [done|]. apply Hend; [done|lia]. }
    destruct (Hturn self HP Hpc)
      as [(self' & -> & HP' & Hlt & Hb)|(e & self' & -> & HQ)].
    + apply IH; [done|]. rewrite Hb. lia.
    + by eexists _, _.
Qed.

Lemma __init___state code_object out self :
  __init__ dis code_object out = inr self ->
  bytes_in_range self
  /\ _program_counter self = 0
  /\ output_file self = out
  /\ LineNumbering.line_steps_nonneg (_line_numbering self).
Proof.
  unfold __init__. intros Hinit.
  destruct (LineNumbering.__init__ code_object) as [e|numbering] eqn:Hln;
    [done|].
  inversion Hinit; subst self. simpl. repeat split; try done.
  - apply bytearray_range.
  - by eapply __init___nonneg.
  - by eapply __init___nonneg.
Qed.

Lemma malformed_at_true self pc :
  malformed_at dis self pc = true ->
  stop_sequence_at self pc = false
  /\ takes_arguments_at self pc = true
  /\ (operand_incomplete self pc = true
      \/ exists instruction constant,
          index (_bytecode self) pc = Some instruction
          /\ _load_constant pc self = (inr constant, self)
          /\ operand_out_of_range dis self instruction constant = true).
Proof.
  unfold malformed_at. intros Hm.
  apply andb_true_iff in Hm as [Hm Hor].
  apply andb_true_iff in Hm as [Hstop Htakes].
  apply negb_true_iff in Hstop. do 2 (split; [done|]).
  apply orb_true_iff in Hor as [?|Hout]; [by left|right].
  pose proof (_load_constant_eq self pc) as Hconstant.
  destruct (_load_constant pc self) as [[e|constant] s]; [done|].
  destruct (index (_bytecode self) pc) as [instruction|]; [|done].
  exists instruction, constant. split; [done|]. split; [|done].
  rewrite Hconstant in *. by inversion Hconstant.
Qed.

(** C4, as the code has it: [disassemble] ends, and it raises only
    [IndexError], only at an instruction that takes an argument and
    either has fewer than two bytes after its opcode or indexes a table
    with an operand outside it; the turn that raises writes nothing and
    is the last.  On a stream without such an instruction it returns. *)
Theorem disassemble_fails_only_on_malformed code_object out self :
  __init__ dis code_object out = inr self ->
  exists r self',
    disassemble dis self = Some (r, self')
    /\ (well_formed dis self -> r = inr tt)
    /\ (forall e, r = inl e ->
        let pc := _program_counter self' in
        e = IndexError
        /\ instruction_start self pc
        /\ pc < len (_bytecode self)
        /\ stop_sequence_at self pc = false
        /\ takes_arguments_at self pc = true
        /\ (operand_incomplete self pc = true
            \/ exists instruction constant,
                index (_bytecode self) pc = Some instruction
                /\ _load_constant pc self = (inr constant, self)
                /\ operand_out_of_range dis self instruction constant = true)
        /\ disassemble_body dis self' = (inl IndexError, self')).
Proof.
  intros Hinit.
  destruct (__init___state _ _ _ Hinit) as (Hbytes & Hpc0 & _ & _).
  pose (P := fun s : t =>
               bytes_in_range s /\ 0 <= _program_counter s
               /\ same_stream s self
               /\ instruction_start self (_program_counter s)).
  pose (Q := fun (r : exn + unit) (s : t) =>
               match r with
               | inr _ => True
               | inl e =>
                   e = IndexError
                   /\ instruction_start self (_program_counter s)
                   /\ _program_counter s < len (_bytecode self)
                   /\ malformed_at dis self (_program_counter s) = true
                   /\ disassemble_body dis s = (inl IndexError, s)
               end).
  destruct (disassemble_loop_invariant P Q) with
    (fuel := Z.to_nat (len (_bytecode self) - _program_counter self))
    (self := self) as (r & self' & Hloop & HQ).
  - intros s (Hb & Hpc & Hsame & Hstart) Hlt.
    destruct (disassemble_body_cases s Hb) as [[Hm Hbody]|[Hm Hbody]];
      [lia| |].
    + right. exists IndexError, s. split; [done|]. unfold Q.
      destruct Hsame as (Hbc & ?).
      rewrite <- (malformed_at_same s self) by done.
      rewrite <- Hbc. by repeat split.
    + left. destruct Hbody as (s' & Hbody & Hpc' & Hsame').
      pose proof (width_pos s (_program_counter s)) as Hw.
      exists s'. split; [done|]. split; [|split; [lia|by destruct Hsame']].
      unfold P. split.
      { unfold bytes_in_range in *. by destruct Hsame' as (-> & _). }
      split; [lia|]. split; [by eapply same_stream_trans|].
      rewrite Hpc', (width_same s self) by done.
      apply start_next; [done|]. by destruct Hsame as (<- & _).
  - by intros.
  - unfold P. repeat split; try done; [lia|constructor].
  - done.
  - exists r, self'. split; [done|]. split.
    + intros Hwf. destruct r as [e|[]]; [|done].
      destruct HQ as (_ & Hstart & Hlt & Hm & _).
      by rewrite (Hwf _ Hstart Hlt) in Hm.
    + intros e ->. destruct HQ as (-> & Hstart & Hlt & Hm & Hbody).
      destruct (malformed_at_true _ _ Hm) as (? & ? & ?).
      by repeat split.
Qed.

(** *** The line numbers of the listing *)

Lemma annotated_app lines1 lines2 ns1 ns2 :
  annotated lines1 ns1 = true -> annotated lines2 ns2 = true ->
  annotated (lines1 ++ lines2) (ns1 ++ ns2) = true.
Proof.
  revert ns1. induction lines1 as [|line lines1 IH]; intros ns1; simpl.
  - by destruct ns1.
  - destruct (carries_line_number line); [|by apply IH].
    destruct ns1 as [|n ns1]; [done|]. simpl.
    intros [Hprefix Hrest]%andb_true_iff Hlines2.
    rewrite Hprefix. simpl. by apply IH.
Qed.

Lemma annotated_snoc_plain lines ns line :
  carries_line_number line = false ->
  annotated lines ns = true -> annotated (lines ++ [line]) ns = true.
Proof.
  intros Hplain Hlines. rewrite <- (app_nil_r ns).
  apply annotated_app; [done|]. simpl. by rewrite Hplain.
Qed.

Lemma annotated_snoc_numbered lines ns n rest :
  annotated lines ns = true ->
  annotated (lines ++ [ljust (pretty n) LINE_WIDTH +:+ rest]) (ns ++ [n])
  = true.
Proof.
  intros Hlines. apply annotated_app; [done|]. simpl.
  rewrite StringFacts.carries_ljust_pretty.
  by rewrite StringFacts.prefix_ljust_append.
Qed.

Lemma Sorted_snoc_le ns n :
  Sorted Z.le ns -> Forall (fun k => k <= n) ns -> Sorted Z.le (ns ++ [n]).
Proof.
  induction 1 as [|k ns Hsorted IH Hhd]; intros Hall; simpl.
  - repeat constructor.
  - inversion Hall as [|? ? Hk Hall']; subst.
    constructor; [by apply IH|].
    destruct Hhd; simpl; by constructor.
Qed.

(** Writing one record keeps the listing in order. *)
Lemma record_invariant out self field self1 pc' pc name argument :
  listing_invariant out self ->
  _format_line_number self = (inr field, self1) ->
  listing_invariant out
    (set__program_counter pc'
       (set_output_file
          (output_file self1 ++ [record dis field pc name argument]) self1)).
Proof.
  intros (Hnn & new & ns & Hout & Hann & Hsorted & Hall) Hfield.
  destruct (record_starts_with_field dis field pc name argument)
    as [rest ->].
  rewrite _format_line_number_eq in Hfield. simpl in Hfield.
  unfold listing_invariant. simpl.
  set (n := LineNumbering.line_number (_line_numbering self)) in *.
  assert (Forall (fun k => k <= n) (ns ++ [n])) as Hall'.
  { apply Forall_app. split; [done|]. by repeat constructor. }
  destruct (negb _ && _).
  - inversion Hfield; subst field self1. simpl.
    destruct (stepped_nonneg _ Hnn) as [Hnn' Hle]. split; [done|].
    exists ((if bool_decide (_program_counter self > 0)
             then new ++ [EmptyString] else new)
            ++ [ljust (pretty n) LINE_WIDTH +:+ rest]), (ns ++ [n]).
    repeat split.
    + case_bool_decide; simpl; rewrite Hout; by rewrite <- ?app_assoc.
    + apply annotated_snoc_numbered. case_bool_decide; [|done].
      by apply annotated_snoc_plain.
    + by apply Sorted_snoc_le.
    + eapply Forall_impl; [exact Hall'|]. simpl. intros k Hk.
      fold n in Hle. lia.
  - inversion Hfield; subst field self1. split; [done|].
    case_bool_decide.
    + exists (new ++ [ljust (pretty n) LINE_WIDTH +:+ rest]), (ns ++ [n]).
      repeat split.
      * by rewrite Hout, <- app_assoc.
      * by apply annotated_snoc_numbered.
      * by apply Sorted_snoc_le.
      * done.
    + exists (new ++ [ljust EmptyString LINE_WIDTH +:+ rest]), ns.
      repeat split; try done.
      * by rewrite Hout, <- app_assoc.
      * by apply annotated_snoc_plain.
Qed.

Lemma disassemble_body_listing out self self' :
  bytes_in_range self ->
  0 <= _program_counter self < len (_bytecode self) ->
  listing_invariant out self ->
  disassemble_body dis self = (inr tt, self') ->
  listing_invariant out self'.
Proof.
  intros Hbytes Hpc Hinv.
  destruct (disassemble_body_eq self Hbytes Hpc)
    as (instruction & name & field & self1 & _ & _ & Hfield & ->).
  destruct (stop_sequence_at self (_program_counter self)).
  { by intros [= <-]. }
  case_bool_decide.
  - destruct (_load_constant _ self).1 as [e|constant]; [done|].
    destruct (_load_argument dis instruction constant self).1
      as [e|argument]; [done|].
    intros [= <-].
    exact (record_invariant out self field self1 _ _ name
             (Some (constant, argument)) Hinv Hfield).
  - intros [= <-].
    exact (record_invariant out self field self1 _ _ name None Hinv Hfield).
Qed.

(** C9: the line numbers that the records of a listing carry never
    decrease from one record to the next, and no sequence of calls makes
    the line number of a line numbering decrease when its pairs step by
    non-negative numbers of lines, as the pairs read from the bytes of a
    code object do. *)
Theorem line_numbers_never_decrease code_object out self :
  __init__ dis code_object out = inr self ->
  (exists r self' new ns,
     disassemble dis self = Some (r, self')
     /\ output_file self' = out ++ new
     /\ annotated new ns = true
     /\ Sorted Z.le ns)
  /\ LineNumbering.line_steps_nonneg (_line_numbering self)
  /\ (forall numbering calls more,
        LineNumbering.line_steps_nonneg numbering ->
        LineNumbering.line_number (LineNumbering.run_calls calls numbering)
        <= LineNumbering.line_number
             (LineNumbering.run_calls (calls ++ more) numbering)).
Proof.
  intros Hinit.
  destruct (__init___state _ _ _ Hinit) as (Hbytes & Hpc0 & Hout & Hnn).
  split; [|split; [done|]].
  - pose (P := fun s : t =>
                 bytes_in_range s /\ 0 <= _program_counter s
                 /\ listing_invariant out s).
    pose (Q := fun (r : exn + unit) (s : t) =>
                 exists new ns,
                   output_file s = out ++ new
                   /\ annotated new ns = true /\ Sorted Z.le ns).
    assert (forall s, listing_invariant out s -> forall r, Q r s) as HQ.
    { intros s (_ & new & ns & ? & ? & ? & _) r. by exists new, ns. }
    destruct (disassemble_loop_invariant P Q) with
      (fuel := Z.to_nat (len (_bytecode self) - _program_counter self))
      (self := self) as (r & self' & Hloop & new & ns & Hfinal).
    + intros s (Hb & Hpc & Hinv) Hlt.
      destruct (disassemble_body_cases s Hb) as [[_ Hbody]|[_ Hbody]];
        [lia| |].
      * right. exists IndexError, s. split; [done|]. by apply HQ.
      * left. destruct Hbody as (s' & Hbody & Hpc' & Hsame').
        pose proof (width_pos s (_program_counter s)) as Hw.
        exists s'. split; [done|].
        split; [|split; [lia|by destruct Hsame']].
        unfold P. split.
        { unfold bytes_in_range in *. by destruct Hsame' as (-> & _). }
        split; [lia|].
        eapply disassemble_body_listing; [exact Hb|lia|done|done].
    + intros s (_ & _ & Hinv) _. by apply HQ.
    + unfold P. split; [done|]. split; [lia|].
      split; [done|]. exists [], []. rewrite app_nil_r.
      repeat split; [done|constructor|constructor].
    + done.
    + by exists r, self', new, ns.
  - intros numbering calls more Hnumbering.
    rewrite run_calls_app.
    by apply run_calls_nonneg, run_calls_nonneg.
Qed.


End Walk.

(** ** The theorems at work on the sample data *)


Lemma relative_jump_target_witness :
  110 ∈ hasjrel Sample.dis
  /\ _load_argument Sample.dis 110 5
       (Sample.state Sample.jump_code 10 Sample.exhausted_numbering)
     = (inr (Int 15),
        Sample.state Sample.jump_code 10 Sample.exhausted_numbering).
Proof.
  assert (110 ∈ hasjrel Sample.dis) as Hjrel by compute_done.
  split; [exact Hjrel|].
  refine (proj2 (relative_jump_target Sample.dis
                   (Sample.state Sample.jump_code 10
                      Sample.exhausted_numbering) 110 5 _ Hjrel)
            eq_refl eq_refl).
  compute_done.
Defined.

Lemma call_arity_pair_witness :
  exists constant,
    _load_constant 0 (Sample.state Sample.call_code 0 Sample.initial_numbering)
    = (inr constant, Sample.state Sample.call_code 0 Sample.initial_numbering)
    /\ _load_argument Sample.dis 131 constant
         (Sample.state Sample.call_code 0 Sample.initial_numbering)
       = (inr (Str "2 positional, 1 keyword pair"),
          Sample.state Sample.call_code 0 Sample.initial_numbering).
Proof.
  destruct (call_arity_pair Sample.dis
              (Sample.state Sample.call_code 0 Sample.initial_numbering)
              131 2 1)
    as (constant & Hconstant & _ & _ & _ & Hscenario);
    [compute_done|compute_done|reflexivity|reflexivity|lia|lia|].
  exists constant. split; [exact Hconstant|].
  exact (Hscenario eq_refl eq_refl).
Defined.

Lemma operand_record_witness :
  exists self' field self1,
    _disassemble_instruction Sample.dis 101
      (Sample.state Sample.two_records 1 Sample.exhausted_numbering)
    = (inr tt, self')
    /\ _format_line_number
         (Sample.state Sample.two_records 1 Sample.exhausted_numbering)
       = (inr field, self1)
    /\ output_file self'
       = output_file self1
         ++ [ljust (field +:+ pretty 1 +:+ " " +:+ "LOAD_NAME")
               (FORMAT_WIDTH Sample.dis) +:+ "0 (x)"].
Proof.
  pose (self := Sample.state Sample.two_records 1 Sample.exhausted_numbering).
  assert (_disassemble_instruction Sample.dis 101 self
          = (inr tt, (_disassemble_instruction Sample.dis 101 self).2))
    as Hrun by (vm_compute; reflexivity).
  destruct (operand_record Sample.dis self 101 _ ltac:(compute_done) Hrun)
    as (constant & argument & name & field & self1 & Hconstant & _ & Hname
        & Hfield & Hout & Hscenario).
  assert (constant = 0) as Hzero.
  { vm_compute in Hconstant. by inversion Hconstant. }
  assert (name = "LOAD_NAME") as Hload.
  { vm_compute in Hname. by inversion Hname. }
  exists (_disassemble_instruction Sample.dis 101 self).2, field, self1.
  split; [exact Hrun|]. split; [exact Hfield|].
  rewrite Hout, (Hscenario ltac:(compute_done) Hzero eq_refl).
  by rewrite Hload.
Defined.

Lemma operand_bearing_advance_witness :
  exists self',
    _disassemble_instruction Sample.dis 101
      (Sample.state Sample.two_records 1 Sample.exhausted_numbering)
    = (inr tt, self')
    /\ _program_counter self' = 4.
Proof.
  destruct (operand_bearing_advance Sample.dis
              (Sample.state Sample.two_records 1 Sample.exhausted_numbering)
              101 0 0)
    as (self' & Hrun & Hpc & _);
    [compute_done|lia|reflexivity|reflexivity|reflexivity|].
  exists self'. split; [exact Hrun|exact Hpc].
Defined.

Lemma undecoded_family_operand_witness :
  107 ∈ _instructions_taking_arguments
          (Sample.state Sample.compare_code 0 Sample.waiting_numbering)
  /\ _load_argument Sample.dis 107 2
       (Sample.state Sample.compare_code 0 Sample.waiting_numbering)
     = (inr None_, Sample.state Sample.compare_code 0 Sample.waiting_numbering)
  /\ exists self',
      _disassemble_instruction Sample.dis 107
        (Sample.state Sample.compare_code 0 Sample.waiting_numbering)
      = (inr tt, self')
      /\ _program_counter self' = 3
      /\ output_file self' = ["4       0 COMPARE_OP 2 (None)"].
Proof.
  destruct (undecoded_family_operand Sample.dis
              (Sample.state Sample.compare_code 0 Sample.waiting_numbering)
              107 2 0)
    as (Htakes & _ & Hargument & name & field & self1 & self' & Hname
        & Hfield & Hrun & Hpc & Hout);
    [reflexivity|compute_done|compute_done|lia|reflexivity|reflexivity|].
  split; [exact Htakes|]. split; [exact Hargument|].
  exists self'. split; [exact Hrun|]. split; [exact Hpc|].
  vm_compute in Hname, Hfield. inversion Hname. inversion Hfield.
  subst name field self1. rewrite Hout. vm_compute. reflexivity.
Defined.

Lemma disassemble_fails_only_on_malformed_witness :
  exists r self',
    disassemble Sample.dis
      (Sample.state Sample.two_records 0 Sample.initial_numbering)
    = Some (r, self')
    /\ (well_formed Sample.dis
          (Sample.state Sample.two_records 0 Sample.initial_numbering) ->
        r = inr tt).
Proof.
  destruct (disassemble_fails_only_on_malformed Sample.dis
              Sample.two_records []
              (Sample.state Sample.two_records 0 Sample.initial_numbering)
              eq_refl)
    as (r & self' & Hrun & Hwf & _).
  exists r, self'. split; [exact Hrun|exact Hwf].
Defined.

Lemma line_numbers_never_decrease_witness :
  exists r self' ns,
    disassemble Sample.dis
      (Sample.state Sample.uneven_lines 0 Sample.uneven_numbering)
    = Some (r, self')
    /\ annotated (output_file self') ns = true
    /\ Sorted Z.le ns.
Proof.
  destruct (line_numbers_never_decrease Sample.dis Sample.uneven_lines []
              (Sample.state Sample.uneven_lines 0 Sample.uneven_numbering)
              eq_refl)
    as ((r & self' & new & ns & Hrun & Hout & Hann & Hsorted) & _).
  exists r, self', ns. split; [exact Hrun|].
  rewrite Hout. split; [exact Hann|exact Hsorted].
Defined.

(** ** Where the code departs from the claims *)

(** C1 as stated: in the listing of [BINARY_ADD; LOAD_NAME 0] with the
    names [["x"]], the operand part of the second record is [0 (x)], the
    raw operand first and the decoded one in parentheses; it is not the
    decoded operand followed by the raw one. *)
Lemma operand_record_counterexample :
  exists self self' operand,
    __init__ Sample.dis Sample.two_records [] = inr self
    /\ disassemble Sample.dis self = Some (inr tt, self')
    /\ output_file self'
       = ["1       0 BINARY_ADD";
          ljust "        1 LOAD_NAME" (FORMAT_WIDTH Sample.dis) +:+ operand]
    /\ operand = "0 (x)"
    /\ operand <> Sample.decoded_then_raw
    /\ operand <> Sample.decoded_then_raw_quoted.
Proof.
  eexists _, _, "0 (x)". split; [reflexivity|].
  split; [vm_compute; reflexivity|].
  split; [vm_compute; reflexivity|].
  split; [reflexivity|]. split; intros Heq; vm_compute in Heq; discriminate.
Qed.


(** C4 as stated: [LOAD_NAME 5] with a single name has both its operand
    bytes, and [disassemble] still raises. *)
Lemma disassemble_fails_only_on_malformed_counterexample :
  exists self self',
    __init__ Sample.dis Sample.name_out_of_range [] = inr self
    /\ len (_bytecode self) = 3
    /\ takes_arguments_at self 0 = true
    /\ operand_incomplete self 0 = false
    /\ index (_bytecode self) 1 = Some 5
    /\ index (_bytecode self) 2 = Some 0
    /\ disassemble Sample.dis self = Some (inl IndexError, self').
Proof.
  eexists _, _. split; [reflexivity|].
  do 5 (split; [vm_compute; reflexivity|]).
  vm_compute. reflexivity.
Qed.

(** C5 as stated: the same [LOAD_NAME 5] takes an argument and has two
    bytes after it, yet the program counter does not move: decoding
    raises. *)
Lemma operand_bearing_advance_counterexample :
  exists self self',
    __init__ Sample.dis Sample.name_out_of_range [] = inr self
    /\ 101 ∈ _instructions_taking_arguments self
    /\ index (_bytecode self) (_program_counter self + 1) = Some 5
    /\ index (_bytecode self) (_program_counter self + 2) = Some 0
    /\ _disassemble_instruction Sample.dis 101 self = (inl IndexError, self')
    /\ _program_counter self' <> _program_counter self + 3.
Proof.
  eexists _, _. split; [reflexivity|].
  split; [compute_done|].
  do 2 (split; [vm_compute; reflexivity|]).
  split; [vm_compute; reflexivity|]. vm_compute. discriminate.
Qed.

End DisassemblerFacts.

(** ** The line table, pair by pair *)

Module LineTableFacts.

Import LineNumbering.
Import LineNumberingFacts.

Lemma pairs_cons b l steps :
  pairs (b :: l :: steps)
  = {| bytecode_step := b; line_step := l |} :: pairs steps.
Proof. unfold pairs. simpl. by destruct steps. Qed.

Lemma replicate_step_cons j self :
  run_calls (replicate (S j) Call_step) self
  = run_calls (replicate j Call_step) (step self).2.
Proof. reflexivity. Qed.

(** X4: the pair at position [j] of the table is made of the bytes at
    positions [2 j] and [2 j + 1]; where one of the two is missing there
    is no pair, so a last byte without a partner is dropped. *)
Theorem pairs_lookup steps (j : nat) :
  pairs steps !! j
  = match steps !! (2 * j)%nat, steps !! (2 * j + 1)%nat with
    | Some b, Some l => Some {| bytecode_step := b; line_step := l |}
    | _, _ => None
    end.
Proof.
  revert steps. induction j as [|j IH]; intros [|b [|l steps]];
    try reflexivity.
  rewrite pairs_cons.
  replace (2 * S j)%nat with (S (S (2 * j))) by lia.
  simpl. apply IH.
Qed.

(** X3: the constructor raises [StopIteration] when the line table has
    fewer than two bytes.  Otherwise it yields an object that is not
    exhausted, whose line number is the first line plus the second byte,
    whose next address is the first byte, and which keeps the pairs of
    the remaining bytes. *)
Theorem __init___first_pair code_object :
  match co_lnotab code_object with
  | b :: l :: rest =>
      __init__ code_object
      = inr {| _iterator := pairs (bytearray rest);
               _steps := {| bytecode_step := byte_to_Z b;
                            line_step := byte_to_Z l |};
               line_number := co_firstlineno code_object + byte_to_Z l;
               next_address := byte_to_Z b;
               is_exhausted := false |}
  | _ => __init__ code_object = inl StopIteration
  end.
Proof.
  unfold __init__.
  destruct (co_lnotab code_object) as [|b [|l rest]]; try reflexivity.
  cbv zeta.
  change (bytearray (b :: l :: rest))
    with (byte_to_Z b :: byte_to_Z l :: bytearray rest).
  by rewrite pairs_cons.
Qed.

(** X5: while pairs are left, [j] calls of [step] leave the object
    active, add to the next address the byte steps of the [j] pairs
    fetched, and add to the line number the line steps of the pair held
    before and of the first [j - 1] pairs fetched. *)
Theorem steps_accumulate self (j : nat) :
  is_exhausted self = false ->
  (j <= length (_iterator self))%nat ->
  let self' := run_calls (replicate j Call_step) self in
  is_exhausted self' = false
  /\ _iterator self' = drop j (_iterator self)
  /\ next_address self'
     = next_address self + total bytecode_step (take j (_iterator self))
  /\ line_number self'
     = line_number self
       + total line_step (take j (_steps self :: _iterator self)).
Proof.
  revert self. induction j as [|j IH]; intros self Hactive Hj; cbv zeta.
  { unfold run_calls, total. simpl. repeat split; [done|lia|lia]. }
  destruct (_iterator self) as [|s rest] eqn:Hit; [simpl in Hj; lia|].
  rewrite replicate_step_cons, step_active by done. cbn [snd].
  assert (is_exhausted (stepped self) = false
          /\ _iterator (stepped self) = rest
          /\ _steps (stepped self) = s
          /\ next_address (stepped self)
             = next_address self + bytecode_step s
          /\ line_number (stepped self)
             = line_number self + line_step (_steps self))
    as (Hactive' & Hit' & Hheld & Hnext & Hline).
  { unfold stepped. by rewrite Hit. }
  destruct (IH (stepped self) Hactive') as (Hex & Hdrop & Haddr & Hln).
  { rewrite Hit'. simpl in Hj. lia. }
  rewrite Hex, Hdrop, Haddr, Hln, Hit', Hheld, Hnext, Hline.
  repeat split. all: unfold total; simpl; lia.
Qed.

(** X6: an active object that keeps [n] pairs accepts exactly [n + 1]
    calls of [step]: the last of them finds the table empty and exhausts
    the object, having added every byte step kept and the line steps of
    the pair held and of the pairs kept; every later [step] raises
    [StopIteration] and changes nothing. *)
Theorem steps_until_exhausted self (later : nat) :
  is_exhausted self = false ->
  let n := length (_iterator self) in
  let self' := run_calls (replicate (S n) Call_step) self in
  is_exhausted self' = true
  /\ next_address self'
     = next_address self + total bytecode_step (_iterator self)
  /\ line_number self'
     = line_number self + total line_step (_steps self :: _iterator self)
  /\ step self' = (inl StopIteration, self')
  /\ run_calls (replicate (S n + later) Call_step) self = self'.
Proof.
  intros Hactive n self'. subst n self'.
  assert (forall m,
            is_exhausted m = false ->
            let m' := run_calls (replicate (S (length (_iterator m)))
                                   Call_step) m in
            is_exhausted m' = true
            /\ next_address m'
               = next_address m + total bytecode_step (_iterator m)
            /\ line_number m'
               = line_number m + total line_step (_steps m :: _iterator m))
    as Hrun.
  { intros m. remember (length (_iterator m)) as n eqn:Hn.
    revert m Hn. induction n as [|n IH]; intros m Hn Hm; cbv zeta.
    - destruct (_iterator m) as [|s rest] eqn:Hit; [|done].
      rewrite replicate_step_cons, step_active by done.
      unfold run_calls, stepped, total. simpl. rewrite Hit. simpl.
      repeat split; lia.
    - destruct (_iterator m) as [|s rest] eqn:Hit; [done|].
      rewrite replicate_step_cons, step_active by done. cbn [snd].
      assert (is_exhausted (stepped m) = false
              /\ _iterator (stepped m) = rest
              /\ _steps (stepped m) = s
              /\ next_address (stepped m) = next_address m + bytecode_step s
              /\ line_number (stepped m)
                 = line_number m + line_step (_steps m))
        as (Hactive' & Hit' & Hheld & Hnext & Hline).
      { unfold stepped. by rewrite Hit. }
      destruct (IH (stepped m)) as (Hex & Haddr & Hln).
      { rewrite Hit'. simpl in Hn. lia. }
      { done. }
      rewrite Hex, Haddr, Hln, Hit', Hheld, Hnext, Hline.
      repeat split. all: unfold total; simpl; lia. }
  destruct (Hrun self Hactive) as (Hex & Haddr & Hln).
  do 3 (split; [done|]). split; [by apply step_exhausted|].
  rewrite replicate_add, run_calls_app.
  by apply run_calls_exhausted.
Qed.

Lemma steps_accumulate_witness :
  line_number (run_calls [Call_step] Sample.uneven_numbering) = 3
  /\ next_address (run_calls [Call_step] Sample.uneven_numbering) = 6.
Proof.
  destruct (steps_accumulate Sample.uneven_numbering 1)
    as (_ & _ & Haddr & Hln); [reflexivity|simpl; lia|].
  split; [exact Hln|exact Haddr].
Defined.

Lemma steps_until_exhausted_witness :
  is_exhausted (run_calls [Call_step; Call_step] Sample.uneven_numbering)
  = true
  /\ line_number (run_calls [Call_step; Call_step] Sample.uneven_numbering)
     = 5.
Proof.
  destruct (steps_until_exhausted Sample.uneven_numbering 0)
    as (Hex & _ & Hln & _); [reflexivity|].
  split; [exact Hex|exact Hln].
Defined.

End LineTableFacts.

(** ** More on the walk *)

Module WalkFacts.

Import Disassembler.
Import LineNumberingFacts.
Import DisassemblerFacts.

Section WithDis.

Variable dis : dis_module.

Implicit Types (self : t) (instruction constant : Z).

Lemma ljust_append_nonempty s rest :
  ljust s LINE_WIDTH +:+ rest <> EmptyString.
Proof. unfold ljust. by destruct s. Qed.

Lemma separated_app lines1 lines2 :
  separated lines1 = true -> separated lines2 = true ->
  separated (lines1 ++ lines2) = true.
Proof.
  induction lines1 as [|line lines1 IH]; intros H1 H2; [done|].
  simpl in *. case_bool_decide; [|by apply IH].
  destruct lines1 as [|next lines1]; [done|].
  apply andb_true_iff in H1 as [Hnext Hrest]. simpl.
  rewrite Hnext. simpl. by apply IH.
Qed.

(** What a turn of the loop on a stream of bytes writes, and where it
    leaves the program counter and the line numbering. *)
Lemma disassemble_body_writes self :
  bytes_in_range self ->
  0 <= _program_counter self < len (_bytecode self) ->
  let pc := _program_counter self in
  let numbering := _line_numbering self in
  let n := LineNumbering.line_number numbering in
  let new_line :=
    negb (LineNumbering.is_exhausted numbering)
    && bool_decide (pc >= LineNumbering.next_address numbering) in
  disassemble_body dis self = (inl IndexError, self)
  \/ exists self' lines,
      disassemble_body dis self = (inr tt, self')
      /\ pc < _program_counter self' <= len (_bytecode self)
      /\ same_stream self' self
      /\ output_file self' = output_file self ++ lines
      /\ ((lines = [] /\ _line_numbering self' = numbering)
          \/ (exists rest,
                new_line = false
                /\ lines = [ljust (if bool_decide (pc = 0) then pretty n
                                   else EmptyString) LINE_WIDTH +:+ rest]
                /\ _line_numbering self' = numbering)
          \/ (exists rest,
                new_line = true
                /\ lines = (if bool_decide (pc > 0) then [EmptyString]
                            else [])
                           ++ [ljust (pretty n) LINE_WIDTH +:+ rest]
                /\ _line_numbering self' = LineNumbering.stepped numbering)).
Proof.
  intros Hbytes Hpc pc numbering n new_line.
  destruct (disassemble_body_eq dis self Hbytes Hpc)
    as (instruction & name & field & self1 & Hinstruction & Hname
        & Hfield & Hbody).
  simpl in Hbody. fold pc in Hbody. rewrite Hbody.
  assert (forall pc' argument,
            exists lines,
              output_file
                (set__program_counter pc'
                   (set_output_file
                      (output_file self1
                       ++ [record dis field pc name argument]) self1))
              = output_file self ++ lines
              /\ same_stream
                   (set__program_counter pc'
                      (set_output_file
                         (output_file self1
                          ++ [record dis field pc name argument]) self1))
                   self
              /\ ((exists rest,
                     new_line = false
                     /\ lines = [ljust (if bool_decide (pc = 0) then pretty n
                                        else EmptyString) LINE_WIDTH +:+ rest]
                     /\ _line_numbering self1 = numbering)
                  \/ (exists rest,
                        new_line = true
                        /\ lines = (if bool_decide (pc > 0)
                                    then [EmptyString] else [])
                                   ++ [ljust (pretty n) LINE_WIDTH +:+ rest]
                        /\ _line_numbering self1
                           = LineNumbering.stepped numbering)))
    as Hrecord.
  { intros pc' argument.
    destruct (record_starts_with_field dis field pc name argument)
      as [rest ->].
    rewrite _format_line_number_eq in Hfield. simpl in Hfield.
    fold pc numbering n new_line in Hfield.
    destruct new_line; inversion Hfield; subst field self1; simpl.
    - exists ((if bool_decide (pc > 0) then [EmptyString] else [])
              ++ [ljust (pretty n) LINE_WIDTH +:+ rest]).
      split; [|split].
      + destruct (bool_decide (pc > 0)); simpl; by rewrite <- ?app_assoc.
      + by destruct (bool_decide (pc > 0)).
      + right. by exists rest.
    - eexists. split; [done|]. split; [by repeat split|].
      left. by exists rest. }
  destruct (stop_sequence_at self pc) eqn:Hstop.
  { right. exists (set__program_counter (pc + 2) self), [].
    split; [done|]. simpl. rewrite app_nil_r.
    unfold stop_sequence_at in Hstop.
    apply andb_true_iff in Hstop as [_ Hnext%bool_decide_eq_true].
    apply index_Some_lt in Hnext; [|lia].
    repeat split; try done; try lia. by left. }
  destruct (bool_decide (instruction ∈ _instructions_taking_arguments self)).
  - rewrite _load_constant_eq. simpl.
    destruct (index (_bytecode self) (pc + 2)) as [high|] eqn:Hhigh;
      [|by left].
    destruct (index (_bytecode self) (pc + 1)) as [low|] eqn:Hlow;
      [|by left].
    destruct (_load_argument dis instruction _ self).1
      as [e|argument] eqn:Hargument.
    { left. by apply _load_argument_raises in Hargument as ->. }
    right. apply index_Some_lt in Hhigh; [|lia].
    destruct (Hrecord (pc + 2 + 1)
                (Some (Z.lor (Z.shiftl high 8) low, argument)))
      as (lines & Hout & Hsame & Hlines).
    eexists _, lines. split; [done|]. simpl. split; [lia|].
    split; [done|]. split; [done|]. right.
    destruct Hlines as [(rest & ? & ? & ?)|(rest & ? & ? & ?)];
      [left|right]; by exists rest.
  - right.
    destruct (Hrecord (pc + 1) None) as (lines & Hout & Hsame & Hlines).
    eexists _, lines. split; [done|]. simpl. split; [lia|].
    split; [done|]. split; [done|]. right.
    destruct Hlines as [(rest & ? & ? & ?)|(rest & ? & ? & ?)];
      [left|right]; by exists rest.
Qed.


(** X1: with the program counter inside the stream, [_at_stop_sequence]
    never raises, not even on the last byte; it answers true exactly when
    the opcode is [POP_TOP] and the next byte is [STOP_CODE], and the
    turn of the loop then moves the program counter by 2 and changes
    nothing else. *)
Theorem stop_sequence_turn self instruction :
  0 <= _program_counter self ->
  index (_bytecode self) (_program_counter self) = Some instruction ->
  exists stop,
    _at_stop_sequence instruction self = (inr stop, self)
    /\ (stop = true <->
        instruction = POP_TOP
        /\ index (_bytecode self) (_program_counter self + 1)
           = Some STOP_CODE)
    /\ (stop = true ->
        disassemble_body dis self
        = (inr tt,
           set__program_counter (_program_counter self + 2) self)).
Proof.
  intros Hpc Hinstruction.
  pose proof (index_Some_lt _ _ _ Hpc Hinstruction) as Hlt.
  exists (stop_sequence_at self (_program_counter self)).
  split; [apply _at_stop_sequence_eq; [lia|done]|]. split.
  - unfold stop_sequence_at. rewrite Hinstruction. split.
    + intros [[Hop _]%andb_true_iff Hnext%bool_decide_eq_true]%andb_true_iff.
      apply bool_decide_eq_true in Hop. split; [congruence|done].
    + intros [-> Hnext]. apply index_Some_lt in Hnext as Hlt'; [|lia].
      rewrite (bool_decide_eq_true_2 _ Hnext).
      rewrite (bool_decide_eq_true_2 (Some POP_TOP = Some POP_TOP)) by done.
      by rewrite bool_decide_eq_false_2 by lia.
  - intros Hstop. unfold disassemble_body.
    cbv beta iota delta [bind modify].
    rewrite _current_instruction_eq, Hinstruction.
    rewrite _at_stop_sequence_eq by (done || lia). by rewrite Hstop.
Qed.

(** X2: an opcode that takes no argument is disassembled whatever
    follows it, also as the last byte of the stream: the program counter
    moves by exactly 1 and the record is the line-number column, the
    offset and the opcode's name, with no operand part. *)
Theorem no_operand_instruction self instruction :
  instruction ∉ _instructions_taking_arguments self ->
  0 <= instruction < 256 ->
  exists name field self1 self',
    index (opname dis) instruction = Some name
    /\ _format_line_number self = (inr field, self1)
    /\ _disassemble_instruction dis instruction self = (inr tt, self')
    /\ _program_counter self' = _program_counter self + 1
    /\ output_file self'
       = output_file self1
         ++ [field +:+ pretty (_program_counter self) +:+ " " +:+ name]
    /\ _line_numbering self' = _line_numbering self1
    /\ same_stream self' self.
Proof.
  intros Hnot Hrange.
  destruct (index_opname dis instruction Hrange) as [name Hname].
  destruct (_format_line_number_frame self)
    as (field & self1 & Hfield & Hpc & Hb & Hc & Ht).
  exists name, field, self1.
  rewrite (_disassemble_instruction_eq dis _ _ _ _ _ Hname Hfield). simpl.
  rewrite bool_decide_eq_false_2 by done.
  eexists. by repeat split.
Qed.

(** X7: an operand that indexes the name, local-name or constant table
    decodes to the entry at that position when there is one, and raises
    [IndexError] when the table is shorter; the object is left as it
    was.  The three families are tried in this order. *)
Theorem index_operand_lookup self instruction constant :
  0 <= constant ->
  let code_object := _code_object self in
  let position := Z.to_nat constant in
  (instruction ∈ hasname dis ->
   _load_argument dis instruction constant self
   = (match co_names code_object !! position with
      | Some name => inr (Str name)
      | None => inl IndexError
      end, self))
  /\ (instruction ∉ hasname dis -> instruction ∈ haslocal dis ->
      _load_argument dis instruction constant self
      = (match co_varnames code_object !! position with
         | Some name => inr (Str name)
         | None => inl IndexError
         end, self))
  /\ (instruction ∉ hasname dis ++ haslocal dis ->
      instruction ∈ hasconst dis ->
      _load_argument dis instruction constant self
      = (match co_consts code_object !! position with
         | Some value => inr value
         | None => inl IndexError
         end, self)).
Proof.
  intros Hconstant code_object position. subst code_object position.
  assert (forall A (l : list A),
            index l constant = l !! Z.to_nat constant) as Hindex.
  { intros A l. unfold index. by rewrite decide_True. }
  unfold _load_argument. run_py. repeat split.
  - intros Hname. rewrite bool_decide_eq_true_2, Hindex by done.
    by destruct (co_names _ !! _).
  - intros Hname Hlocal.
    rewrite bool_decide_eq_false_2, bool_decide_eq_true_2, Hindex by done.
    by destruct (co_varnames _ !! _).
  - intros [Hname Hlocal]%not_elem_of_app Hconst.
    rewrite !bool_decide_eq_false_2, bool_decide_eq_true_2, Hindex by done.
    by destruct (co_consts _ !! _).
Qed.

(** X8: on a stream of bytes, [_load_constant] raises [IndexError]
    exactly when fewer than two bytes follow the offset; otherwise its
    value is the first of them plus 256 times the second, a number below
    65536.  The object is left as it was. *)
Theorem operand_is_16_bit self offset :
  bytes_in_range self ->
  0 <= offset ->
  (len (_bytecode self) <= offset + 2 ->
   _load_constant offset self = (inl IndexError, self))
  /\ (offset + 2 < len (_bytecode self) ->
      exists low high,
        index (_bytecode self) (offset + 1) = Some low
        /\ index (_bytecode self) (offset + 2) = Some high
        /\ _load_constant offset self = (inr (low + 256 * high), self)
        /\ 0 <= low + 256 * high < 65536).
Proof.
  intros Hbytes Hoffset. rewrite _load_constant_eq. split.
  - intros Hshort.
    destruct (index (_bytecode self) (offset + 2)) as [high|] eqn:Hhigh;
      [|done].
    apply index_Some_lt in Hhigh; lia.
  - intros Hlong.
    destruct (index_is_Some (_bytecode self) (offset + 1)) as [low Hlow];
      [lia|].
    destruct (index_is_Some (_bytecode self) (offset + 2))
      as [high Hhigh]; [lia|].
    assert (forall i z, 0 <= i -> index (_bytecode self) i = Some z ->
                        0 <= z < 256) as Hrange.
    { intros i z Hi Hz. unfold bytes_in_range in Hbytes.
      rewrite Forall_forall in Hbytes. apply Hbytes.
      unfold index in Hz. rewrite decide_True in Hz by done.
      by eapply list_elem_of_lookup_2. }
    pose proof (Hrange (offset + 1) low ltac:(lia) Hlow).
    pose proof (Hrange (offset + 2) high ltac:(lia) Hhigh).
    exists low, high. rewrite Hlow, Hhigh, lor_bytes by lia.
    repeat split; try done; try lia. do 2 f_equal. lia.
Qed.

(** X9: started inside a stream of bytes, [disassemble] ends; it never
    touches the stream, the code object or the set of opcodes, only adds
    lines to the sink, and never moves the program counter back.  When it
    returns the program counter is exactly the length of the stream;
    when it raises, the program counter is at an instruction inside
    the stream. *)
Theorem walk_ends_at_stream_end self :
  bytes_in_range self ->
  0 <= _program_counter self <= len (_bytecode self) ->
  exists r self' new,
    disassemble dis self = Some (r, self')
    /\ same_stream self' self
    /\ output_file self' = output_file self ++ new
    /\ _program_counter self <= _program_counter self'
    /\ match r with
       | inr _ => _program_counter self' = len (_bytecode self)
       | inl _ => _program_counter self' < len (_bytecode self)
       end.
Proof.
  intros Hbytes Hpc.
  pose (P := fun s : t =>
               bytes_in_range s
               /\ _program_counter self <= _program_counter s
                  <= len (_bytecode self)
               /\ same_stream s self
               /\ exists new, output_file s = output_file self ++ new).
  pose (Q := fun (r : exn + unit) (s : t) =>
               same_stream s self
               /\ (exists new, output_file s = output_file self ++ new)
               /\ _program_counter self <= _program_counter s
               /\ match r with
                  | inr _ => _program_counter s = len (_bytecode self)
                  | inl _ => _program_counter s < len (_bytecode self)
                  end).
  destruct (disassemble_loop_invariant dis P Q) with
    (fuel := Z.to_nat (len (_bytecode self) - _program_counter self))
    (self := self) as (r & self' & Hloop & Hsame & [new Hnew] & Hle & Hr).
  - intros s (Hb & Hs & Hsame & new & Hnew) Hlt.
    pose proof Hsame as (Hbc & _).
    destruct (disassemble_body_writes s Hb)
      as [Hraise|(s' & lines & Hbody & Hpc' & Hsame' & Hout & _)]; [lia| |].
    + right. exists IndexError, s. split; [done|]. unfold Q.
      rewrite Hbc in Hlt. split; [done|]. split; [by exists new|].
      split; lia.
    + left. exists s'. split; [done|]. pose proof Hsame' as (Hbc' & _).
      split; [|split; [lia|done]]. unfold P. split.
      { unfold bytes_in_range in *. by rewrite Hbc'. }
      rewrite Hbc in Hpc'. split; [lia|].
      split; [by eapply same_stream_trans|].
      exists (new ++ lines). by rewrite Hout, Hnew, <- app_assoc.
  - intros s (Hb & Hs & Hsame & Hnew) Hge. pose proof Hsame as (Hbc & _).
    unfold Q. rewrite Hbc in Hge. split; [done|]. split; [done|].
    split; lia.
  - unfold P. split; [done|]. split; [lia|].
    split; [apply same_stream_refl|]. exists []. by rewrite app_nil_r.
  - done.
  - by exists r, self', new.
Qed.

(** X10: once the line numbering is exhausted, the rest of the walk
    leaves it as it is and writes only records whose line-number column
    is blank, with no blank line between them. *)
Theorem exhausted_tail self :
  bytes_in_range self ->
  0 < _program_counter self ->
  LineNumbering.is_exhausted (_line_numbering self) = true ->
  exists r self' new,
    disassemble dis self = Some (r, self')
    /\ _line_numbering self' = _line_numbering self
    /\ output_file self' = output_file self ++ new
    /\ Forall (fun line =>
                 exists rest,
                   line = ljust EmptyString LINE_WIDTH +:+ rest) new.
Proof.
  intros Hbytes Hpc Hex.
  pose (P := fun s : t =>
               bytes_in_range s /\ 0 < _program_counter s
               /\ _line_numbering s = _line_numbering self
               /\ exists new,
                   output_file s = output_file self ++ new
                   /\ Forall (fun line =>
                                exists rest,
                                  line = ljust EmptyString LINE_WIDTH
                                         +:+ rest) new).
  pose (Q := fun (r : exn + unit) (s : t) =>
               _line_numbering s = _line_numbering self
               /\ exists new,
                   output_file s = output_file self ++ new
                   /\ Forall (fun line =>
                                exists rest,
                                  line = ljust EmptyString LINE_WIDTH
                                         +:+ rest) new).
  destruct (disassemble_loop_invariant dis P Q) with
    (fuel := Z.to_nat (len (_bytecode self) - _program_counter self))
    (self := self) as (r & self' & Hloop & Hln & new & Hnew & Hall).
  - intros s (Hb & Hs & Hnumbering & new & Hnew & Hall) Hlt.
    destruct (disassemble_body_writes s Hb)
      as [Hraise|(s' & lines & Hbody & Hpc' & Hsame' & Hout & Hlines)];
      [lia| |].
    + right. exists IndexError, s. split; [done|]. split; [done|].
      by exists new.
    + left. exists s'. split; [done|]. pose proof Hsame' as (Hbc' & _).
      split; [|split; [lia|done]]. unfold P. split.
      { unfold bytes_in_range in *. by rewrite Hbc'. }
      split; [lia|]. rewrite Hnumbering, Hex in Hlines. simpl in Hlines.
      rewrite bool_decide_eq_false_2 in Hlines by lia.
      destruct Hlines as [[-> Hln]|[(rest & _ & -> & Hln)|(? & ? & _)]];
        [| |done].
      * split; [done|]. exists new. by rewrite Hout, app_nil_r.
      * split; [done|]. eexists. rewrite Hout, Hnew, <- app_assoc.
        split; [done|]. apply Forall_app. split; [done|].
        repeat constructor. by exists rest.
  - intros s (_ & _ & Hnumbering & new & Hnew & Hall) _.
    split; [done|]. by exists new.
  - unfold P. repeat split; try done. exists []. by rewrite app_nil_r.
  - done.
  - by exists r, self', new.
Qed.

Lemma one_line_append a b :
  one_line (a +:+ b) = one_line a && one_line b.
Proof.
  induction a as [|c a IH]; [done|].
  rewrite StringFacts.append_cons. simpl. rewrite IH.
  by rewrite andb_assoc.
Qed.

Lemma one_line_spaces n : one_line (spaces n) = true.
Proof. induction n as [|n IH]; [done|]. simpl. by rewrite IH. Qed.

Lemma one_line_ljust text width :
  one_line text = true -> one_line (ljust text width) = true.
Proof.
  intros Htext. unfold ljust.
  by rewrite one_line_append, Htext, one_line_spaces.
Qed.

Lemma one_line_pretty_N_go x text :
  one_line text = true -> one_line (pretty_N_go x text) = true.
Proof.
  revert text. induction (N.lt_wf_0 x) as [x _ IH]. intros text Htext.
  destruct (decide (x = 0)%N) as [->|Hpos].
  { by rewrite pretty_N_go_0. }
  rewrite pretty_N_go_step by lia.
  apply IH; [apply N.div_lt; lia|]. simpl. rewrite Htext.
  unfold pretty_N_char. by repeat case_match.
Qed.

Lemma one_line_pretty (z : Z) : one_line (pretty z) = true.
Proof.
  assert (forall p : positive, one_line (pretty (Npos p)) = true) as Hpos.
  { intros p. unfold pretty, pretty_N. rewrite decide_False by done.
    by apply one_line_pretty_N_go. }
  destruct z as [|p|p]; [done|apply Hpos|].
  unfold pretty, pretty_Z. rewrite one_line_append. simpl. apply Hpos.
Qed.

Lemma index_elem_of {A} (l : list A) i x : index l i = Some x -> x ∈ l.
Proof.
  unfold index. repeat case_decide; [| |done];
    intros Hx; by eapply list_elem_of_lookup_2.
Qed.

(** What the decoder returns is written on one line. *)
Lemma _load_argument_one_line self instruction constant argument :
  tables_one_line dis self ->
  (_load_argument dis instruction constant self).1 = inr argument ->
  one_line (str argument) = true.
Proof.
  intros (_ & Hnames & Hlocals & Hconsts).
  rewrite Forall_forall in Hnames. rewrite Forall_forall in Hlocals.
  rewrite Forall_forall in Hconsts.
  unfold _load_argument. run_py.
  repeat case_bool_decide; simpl;
    rewrite ?_load_function_call_arguments_eq;
    repeat (match goal with |- context [index ?l ?i] =>
              destruct (index l i) eqn:? end);
    simpl; intros [= <-]; simpl;
    rewrite ?one_line_append, ?one_line_pretty; try done.
  - apply Hnames. by eapply index_elem_of.
  - apply Hlocals. by eapply index_elem_of.
  - apply Hconsts. by eapply index_elem_of.
Qed.

Lemma record_one_line field pc name argument :
  one_line field = true -> one_line name = true ->
  match argument with
  | Some (_, decoded) => one_line (str decoded) = true
  | None => True
  end ->
  one_line (record dis field pc name argument) = true.
Proof.
  intros Hfield Hname Hargument. unfold record.
  assert (one_line (field +:+ pretty pc +:+ " " +:+ name) = true) as Hhead.
  { by rewrite !one_line_append, Hfield, one_line_pretty, Hname. }
  destruct argument as [[constant decoded]|]; [|done].
  rewrite one_line_append, one_line_ljust by done.
  by rewrite !one_line_append, one_line_pretty, Hargument.
Qed.

(** Every text a turn of the loop prints is one line. *)
Lemma disassemble_body_one_line self self' lines :
  bytes_in_range self ->
  0 <= _program_counter self < len (_bytecode self) ->
  tables_one_line dis self ->
  disassemble_body dis self = (inr tt, self') ->
  output_file self' = output_file self ++ lines ->
  Forall (fun text => one_line text = true) lines.
Proof.
  intros Hbytes Hpc Htables.
  destruct (disassemble_body_eq dis self Hbytes Hpc)
    as (instruction & name & field & self1 & _ & Hname & Hfield & ->).
  assert (one_line name = true) as Hname1.
  { destruct Htables as (Hopname & _).
    rewrite Forall_forall in Hopname. apply Hopname.
    by eapply index_elem_of. }
  assert (one_line field = true
          /\ exists blank,
              output_file self1 = output_file self ++ blank
              /\ Forall (fun text => one_line text = true) blank)
    as (Hfield1 & blank & Hblank & Hblank1).
  { rewrite _format_line_number_eq in Hfield. simpl in Hfield.
    destruct (negb _ && _); inversion Hfield; subst field self1.
    - split; [apply one_line_ljust, one_line_pretty|].
      destruct (bool_decide (_program_counter self > 0)); simpl.
      + exists [EmptyString]. split; [done|]. by repeat constructor.
      + exists []. by rewrite app_nil_r.
    - split.
      + apply one_line_ljust. case_bool_decide; [|done].
        apply one_line_pretty.
      + exists []. by rewrite app_nil_r. }
  assert (forall pc' argument,
            match argument with
            | Some (_, decoded) => one_line (str decoded) = true
            | None => True
            end ->
            output_file
              (set__program_counter pc'
                 (set_output_file
                    (output_file self1
                     ++ [record dis field (_program_counter self) name
                           argument]) self1))
            = output_file self ++ lines ->
            Forall (fun text => one_line text = true) lines) as Hrecord.
  { intros pc' argument Hargument. simpl.
    rewrite Hblank, <- app_assoc. intros <-%app_inv_head.
    apply Forall_app. split; [done|]. repeat constructor.
    by apply record_one_line. }
  destruct (stop_sequence_at self (_program_counter self)).
  { intros [= <-]. simpl. rewrite <- (app_nil_r (output_file self)) at 1.
    by intros <-%app_inv_head. }
  destruct (bool_decide (instruction ∈ _instructions_taking_arguments self)).
  - destruct (_load_constant _ self).1 as [e|constant]; [done|].
    destruct (_load_argument dis instruction constant self).1
      as [e|argument] eqn:Hargument; [done|].
    intros [= <-].
    refine (Hrecord _ (Some (constant, argument)) _).
    by eapply _load_argument_one_line.
  - intros [= <-]. exact (Hrecord _ None I).
Qed.

(** X12: when no opcode name and no name, local name or constant of the
    code object is written with a newline in it, every text that
    [disassemble] prints is exactly one line of the sink, and among
    these lines a blank one is never the last and never follows another
    blank one: each blank line is followed by the record it separates
    from the ones before. *)
Theorem listing_lines_separated self :
  bytes_in_range self ->
  0 <= _program_counter self ->
  tables_one_line dis self ->
  exists r self' new,
    disassemble dis self = Some (r, self')
    /\ output_file self' = output_file self ++ new
    /\ Forall (fun text => one_line text = true) new
    /\ separated new = true.
Proof.
  intros Hbytes Hpc Htables.
  pose (P := fun s : t =>
               bytes_in_range s /\ 0 <= _program_counter s
               /\ same_stream s self
               /\ exists new,
                   output_file s = output_file self ++ new
                   /\ Forall (fun text => one_line text = true) new
                   /\ separated new = true).
  pose (Q := fun (r : exn + unit) (s : t) =>
               exists new,
                 output_file s = output_file self ++ new
                 /\ Forall (fun text => one_line text = true) new
                 /\ separated new = true).
  destruct (disassemble_loop_invariant dis P Q) with
    (fuel := Z.to_nat (len (_bytecode self) - _program_counter self))
    (self := self) as (r & self' & Hloop & new & Hnew & Hone & Hsep).
  - intros s (Hb & Hs & Hsame & new & Hnew & Hone & Hsep) Hlt.
    destruct (disassemble_body_writes s Hb)
      as [Hraise|(s' & lines & Hbody & Hpc' & Hsame' & Hout & Hlines)];
      [lia| |].
    + right. exists IndexError, s. split; [done|]. by exists new.
    + left. exists s'. split; [done|]. pose proof Hsame' as (Hbc' & _).
      split; [|split; [lia|done]]. unfold P. split.
      { unfold bytes_in_range in *. by rewrite Hbc'. }
      split; [lia|]. split; [by eapply same_stream_trans|].
      exists (new ++ lines).
      split; [by rewrite Hout, Hnew, <- app_assoc|]. split.
      { apply Forall_app. split; [done|].
        apply (disassemble_body_one_line s s'); [done|lia| |done|done].
        destruct Hsame as (_ & Hcode & _). unfold tables_one_line in *.
        by rewrite Hcode. }
      apply separated_app; [done|].
      destruct Hlines as [[-> _]|[(rest & _ & -> & _)|(rest & _ & -> & _)]].
      * done.
      * simpl. by rewrite bool_decide_eq_false_2
          by apply ljust_append_nonempty.
      * destruct (bool_decide (_program_counter s > 0)); simpl;
          by rewrite bool_decide_eq_false_2
            by apply ljust_append_nonempty.
  - intros s (_ & _ & _ & new & Hnew & Hone & Hsep) _. by exists new.
  - unfold P. split; [done|]. split; [done|].
    split; [apply same_stream_refl|]. exists []. by rewrite app_nil_r.
  - done.
  - by exists r, self', new.
Qed.

Lemma filler_length n : length (filler n) = (2 * n)%nat.
Proof.
  unfold filler. induction n as [|n IH]; [done|].
  simpl. rewrite IH. lia.
Qed.

Lemma set__program_counter_twice pc1 pc2 self :
  set__program_counter pc2 (set__program_counter pc1 self)
  = set__program_counter pc2 self.
Proof. reflexivity. Qed.

Lemma filler_loop n :
  forall self fuel,
    0 <= _program_counter self ->
    drop (Z.to_nat (_program_counter self)) (_bytecode self) = filler n ->
    (n <= fuel)%nat ->
    disassemble_loop dis fuel self
    = Some (inr tt,
            set__program_counter (_program_counter self + 2 * Z.of_nat n)
              self).
Proof.
  induction n as [|n IH]; intros self fuel Hpc Hdrop Hfuel.
  - assert (len (_bytecode self) <= _program_counter self) as Hend.
    { apply (f_equal length) in Hdrop. rewrite length_drop in Hdrop.
      simpl in Hdrop. unfold len. lia. }
    assert (disassemble_loop dis fuel self = Some (inr tt, self)) as ->.
    { destruct fuel; simpl; by rewrite bool_decide_eq_false_2 by lia. }
    destruct self. simpl. by rewrite Z.add_0_r.
  - destruct fuel as [|fuel]; [lia|].
    assert (index (_bytecode self) (_program_counter self) = Some POP_TOP
            /\ index (_bytecode self) (_program_counter self + 1)
               = Some STOP_CODE) as [Hop Hnext].
    { unfold index. rewrite !decide_True by lia.
      replace (Z.to_nat (_program_counter self + 1))
        with (Z.to_nat (_program_counter self) + 1)%nat by lia.
      rewrite <- (Nat.add_0_r (Z.to_nat (_program_counter self))) at 1.
      rewrite <- !lookup_drop, Hdrop. by split. }
    pose proof (index_Some_lt _ _ _ Hpc Hop) as Hlt.
    assert (disassemble_body dis self
            = (inr tt,
               set__program_counter (_program_counter self + 2) self))
      as Hbody.
    { unfold disassemble_body. cbv beta iota delta [bind modify].
      rewrite _current_instruction_eq, Hop.
      rewrite _at_stop_sequence_eq by (done || lia).
      unfold stop_sequence_at. rewrite Hop, Hnext.
      apply index_Some_lt in Hnext; [|lia].
      rewrite !bool_decide_eq_true_2 by done.
      by rewrite bool_decide_eq_false_2 by lia. }
    simpl. rewrite bool_decide_eq_true_2, Hbody by done.
    rewrite IH; simpl; [|lia| |lia].
    + rewrite set__program_counter_twice. do 3 f_equal. lia.
    + replace (Z.to_nat (_program_counter self + 2))
        with (Z.to_nat (_program_counter self) + 2)%nat by lia.
      by rewrite <- drop_drop, Hdrop.
Qed.

(** X11: when all that is left of the stream is filler pairs,
    [disassemble] returns with the program counter moved past them, and
    has written nothing and left the line numbering alone. *)
Theorem filler_stream_skipped self n :
  0 <= _program_counter self ->
  drop (Z.to_nat (_program_counter self)) (_bytecode self) = filler n ->
  disassemble dis self
  = Some (inr tt,
          set__program_counter (_program_counter self + 2 * Z.of_nat n)
            self).
Proof.
  intros Hpc Hdrop. apply filler_loop; [done|done|].
  apply (f_equal length) in Hdrop.
  rewrite length_drop, filler_length in Hdrop. unfold len. lia.
Qed.

(** X13: a disassembler cannot be made for a code object whose line
    table has fewer than two bytes: the constructor raises
    [StopIteration].  Otherwise it starts at offset 0, with the sink as
    given, over the bytes of the code, with a line numbering made from
    the same code object. *)
Theorem construction_needs_a_line_pair code_object out :
  match co_lnotab code_object with
  | _ :: _ :: _ =>
      exists self,
        __init__ dis code_object out = inr self
        /\ _program_counter self = 0
        /\ output_file self = out
        /\ _code_object self = code_object
        /\ _bytecode self = bytearray (co_code code_object)
        /\ LineNumbering.__init__ code_object = inr (_line_numbering self)
  | _ => __init__ dis code_object out = inl StopIteration
  end.
Proof.
  unfold __init__, LineNumbering.__init__.
  destruct (co_lnotab code_object) as [|b [|l rest]]; try reflexivity.
  cbv zeta.
  change (bytearray (b :: l :: rest))
    with (byte_to_Z b :: byte_to_Z l :: bytearray rest).
  rewrite LineTableFacts.pairs_cons. eexists. by repeat split.
Qed.

End WithDis.

(** *** The theorems at work on the sample data *)

Lemma stop_sequence_turn_witness :
  disassemble_body Sample.dis
    (Sample.state Sample.filler_code 0 Sample.initial_numbering)
  = (inr tt,
     set__program_counter 2
       (Sample.state Sample.filler_code 0 Sample.initial_numbering)).
Proof.
  destruct (stop_sequence_turn Sample.dis
              (Sample.state Sample.filler_code 0 Sample.initial_numbering)
              1)
    as (stop & _ & Hiff & Hturn); [simpl; lia|reflexivity|].
  apply Hturn, Hiff. by split.
Defined.

Lemma no_operand_instruction_witness :
  exists self',
    _disassemble_instruction Sample.dis 23
      (Sample.state Sample.two_records 0 Sample.initial_numbering)
    = (inr tt, self')
    /\ _program_counter self' = 1.
Proof.
  destruct (no_operand_instruction Sample.dis
              (Sample.state Sample.two_records 0 Sample.initial_numbering)
              23)
    as (name & field & self1 & self' & _ & _ & Hrun & Hpc & _);
    [compute_done|lia|].
  exists self'. split; [exact Hrun|exact Hpc].
Defined.

Lemma index_operand_lookup_witness :
  _load_argument Sample.dis 101 0
    (Sample.state Sample.two_records 1 Sample.exhausted_numbering)
  = (inr (Str "x"),
     Sample.state Sample.two_records 1 Sample.exhausted_numbering).
Proof.
  refine (proj1 (index_operand_lookup Sample.dis
                   (Sample.state Sample.two_records 1
                      Sample.exhausted_numbering) 101 0 _) _);
    [lia|compute_done].
Defined.

Lemma operand_is_16_bit_witness :
  exists low high,
    _load_constant 0 (Sample.state Sample.call_code 0
                        Sample.initial_numbering)
    = (inr (low + 256 * high),
       Sample.state Sample.call_code 0 Sample.initial_numbering)
    /\ 0 <= low + 256 * high < 65536.
Proof.
  destruct (operand_is_16_bit
              (Sample.state Sample.call_code 0 Sample.initial_numbering) 0)
    as [_ Hlong]; [apply bytearray_range|lia|].
  destruct Hlong as (low & high & _ & _ & Hconstant & Hrange);
    [vm_compute; reflexivity|].
  exists low, high. split; [exact Hconstant|exact Hrange].
Defined.

Lemma walk_ends_at_stream_end_witness :
  exists r self',
    disassemble Sample.dis
      (Sample.state Sample.two_records 0 Sample.initial_numbering)
    = Some (r, self')
    /\ same_stream self'
         (Sample.state Sample.two_records 0 Sample.initial_numbering).
Proof.
  destruct (walk_ends_at_stream_end Sample.dis
              (Sample.state Sample.two_records 0 Sample.initial_numbering))
    as (r & self' & new & Hrun & Hsame & _);
    [apply bytearray_range|simpl; unfold len; simpl; lia|].
  exists r, self'. split; [exact Hrun|exact Hsame].
Defined.

Lemma exhausted_tail_witness :
  exists r self',
    disassemble Sample.dis
      (Sample.state Sample.two_records 1 Sample.exhausted_numbering)
    = Some (r, self')
    /\ _line_numbering self' = Sample.exhausted_numbering.
Proof.
  destruct (exhausted_tail Sample.dis
              (Sample.state Sample.two_records 1
                 Sample.exhausted_numbering))
    as (r & self' & new & Hrun & Hnumbering & _);
    [apply bytearray_range|simpl; lia|reflexivity|].
  exists r, self'. split; [exact Hrun|exact Hnumbering].
Defined.

Lemma listing_lines_separated_witness :
  exists r self',
    disassemble Sample.dis
      (Sample.state Sample.uneven_lines 0 Sample.uneven_numbering)
    = Some (r, self')
    /\ Forall (fun text => one_line text = true) (output_file self')
    /\ separated (output_file self') = true.
Proof.
  destruct (listing_lines_separated Sample.dis
              (Sample.state Sample.uneven_lines 0 Sample.uneven_numbering))
    as (r & self' & new & Hrun & Hout & Hone & Hseparated);
    [apply bytearray_range|simpl; lia| |].
  { repeat split; compute_done. }
  exists r, self'. rewrite Hout.
  split; [exact Hrun|]. split; [exact Hone|exact Hseparated].
Defined.

Lemma filler_stream_skipped_witness :
  disassemble Sample.dis
    (Sample.state Sample.filler_code 0 Sample.initial_numbering)
  = Some (inr tt,
          set__program_counter 4
            (Sample.state Sample.filler_code 0 Sample.initial_numbering)).
Proof.
  apply (filler_stream_skipped Sample.dis
           (Sample.state Sample.filler_code 0 Sample.initial_numbering) 2);
    [simpl; lia|reflexivity].
Defined.

End WalkFacts.
